(** * m168_bike_light: a shallow embedding of the bicycle tail light firmware

    The firmware of [m168_bike_light.c] drives eight LEDs on PORTD of an
    ATmega168 from a four-mode state machine.  A button on PC0 is debounced
    by the Timer0 overflow interrupt, Timer1 in CTC mode paces the display,
    and the last mode powers the chip down until a pin change wakes it.

    The program's global variables and the I/O registers it touches live in
    one store indexed by [Loc]; every C function becomes a store transformer
    with the wrap-around of [unsigned char] and [unsigned int] written out.
    Writes to the LED port, the busy-wait delay and the halt instruction are
    recorded in an output trace, oldest event first. *)

From Stdlib Require Import ZArith Lia List Bool.
Import ListNotations.
Open Scope Z_scope.

(** ** Machine words *)

(** [unsigned char] and [unsigned int] of avr-gcc: 8 and 16 bits. *)
Definition u8 (x : Z) : Z := x mod 2 ^ 8.
Definition u16 (x : Z) : Z := x mod 2 ^ 16.

(** [1<<n], the [_BV(n)] of avr-libc. *)
Definition bv (n : Z) : Z := Z.shiftl 1 n.

(** The values an [unsigned char] holds. *)
Definition byte (x : Z) : Prop := 0 <= x < 256.

(** Number of set bits among the low eight. *)
Definition popcount8 (x : Z) : nat :=
  length (filter (Z.testbit x) [0; 1; 2; 3; 4; 5; 6; 7]).

(** ** Pin and setting definitions (lines 33-53) *)

Definition KEY0 : Z := 0.

Definition sweepDelay : Z := 469.
Definition xorDelay : Z := 3125.
Definition flashDelay : Z := 1719.

Definition sweep : Z := 0.
Definition xor : Z := 1.
Definition flash : Z := 2.
Definition sleep : Z := 3.

(** Bit numbers of <avr/io.h> and <avr/sleep.h> for the ATmega168. *)
Definition CS00 : Z := 0.
Definition CS02 : Z := 2.
Definition TOIE0 : Z := 0.
Definition CS10 : Z := 0.
Definition CS11 : Z := 1.
Definition CS12 : Z := 2.
Definition WGM12 : Z := 3.
Definition OCIE1A : Z := 1.
Definition PCIE1 : Z := 1.
Definition PCINT8 : Z := 0.
Definition SE : Z := 0.
Definition SM0 : Z := 1.
Definition SM1 : Z := 2.
Definition SM2 : Z := 3.
Definition SREG_I : Z := 7.
Definition SLEEP_MODE_PWR_DOWN : Z := bv SM1.

(** ** The store *)

(** The global variables of the program (with the two function-local
    statics [ct0] and [ct1] of the debounce routine) and the registers. *)
Inductive Loc : Type :=
  | state | timer | tracker | direction | debounce_cnt
  | key_press | key_state | ct0 | ct1
  | PORTD | DDRD | PORTC | DDRC
  | TCCR0B | TIMSK0 | TCNT0
  | OCR1A | TCCR1B | TCNT1 | TIMSK1
  | PCICR | PCMSK1 | SMCR | SREG.

Definition Loc_eq_dec (a b : Loc) : {a = b} + {a <> b}.
Proof. decide equality. Defined.

(** What the outside world can observe. *)
Inductive Event : Type :=
  | LedWrite (pattern : Z)
  | Delay (ms : Z)
  | Halt.

Record Machine : Type := mkMachine {
  mem : Loc -> Z;
  trace : list Event
}.

Definition rd (m : Machine) (l : Loc) : Z := mem m l.

Definition wr (l : Loc) (v : Z) (m : Machine) : Machine :=
  {| mem := fun l' => if Loc_eq_dec l l' then v else mem m l';
     trace := trace m |}.

Definition emit (e : Event) (m : Machine) : Machine :=
  {| mem := mem m; trace := trace m ++ [e] |}.

(** Commands are store transformers, sequenced left to right. *)
Definition Cmd : Type := Machine -> Machine.

Definition seqc (c1 c2 : Cmd) : Cmd := fun m => c2 (c1 m).
Notation "c1 ;; c2" := (seqc c1 c2) (at level 61, right associativity).

Definition skip : Cmd := fun m => m.

(** [l = e] for an 8-bit and for a 16-bit location. *)
Definition assign8 (l : Loc) (e : Machine -> Z) : Cmd :=
  fun m => wr l (u8 (e m)) m.
Definition assign16 (l : Loc) (e : Machine -> Z) : Cmd :=
  fun m => wr l (u16 (e m)) m.

(** [l |= v], [l &= v] and [l ^= v] on an 8-bit location. *)
Definition or_eq (l : Loc) (v : Z) : Cmd :=
  assign8 l (fun m => Z.lor (rd m l) v).
Definition and_eq (l : Loc) (v : Z) : Cmd :=
  assign8 l (fun m => Z.land (rd m l) v).
Definition xor_eq (l : Loc) (v : Z) : Cmd :=
  assign8 l (fun m => Z.lxor (rd m l) v).

(** The LED port is PORTD; every write to it is visible on the LEDs. *)
Definition ledPort : Loc := PORTD.
Definition ledDDR : Loc := DDRD.
Definition KEY_PORT : Loc := PORTC.
Definition KEY_DDR : Loc := DDRC.

Definition show : Cmd := fun m => emit (LedWrite (rd m ledPort)) m.

(** [cli()] and [sei()] clear and set the I bit of the status register. *)
Definition cli : Cmd := and_eq SREG (Z.lnot (bv SREG_I)).
Definition sei : Cmd := or_eq SREG (bv SREG_I).

(** ** Functions (lines 94-210) *)

Definition initIO : Cmd :=
  or_eq ledDDR 255 ;;
  or_eq ledPort 255 ;; show ;;
  and_eq KEY_DDR (Z.lnot (bv KEY0)) ;;
  or_eq KEY_PORT (bv KEY0).

Definition initTimer1_modes : Cmd :=
  cli ;;
  or_eq TIMSK1 (bv OCIE1A) ;;
  or_eq TCCR1B (bv WGM12) ;;
  sei.

Definition timer0_overflow : Cmd :=
  cli ;;
  or_eq TCCR0B (Z.lor (bv CS02) (bv CS00)) ;;
  or_eq TIMSK0 (bv TOIE0) ;;
  sei.

Definition start_timer1_compare (cycle_count : Z) : Cmd :=
  cli ;;
  assign16 OCR1A (fun _ => cycle_count) ;;
  or_eq TCCR1B (Z.lor (bv CS11) (bv CS10)) ;;
  sei.

Definition timer1_stop : Cmd :=
  cli ;;
  and_eq TCCR1B (Z.lnot (Z.lor (bv CS11) (bv CS10))) ;;
  assign16 TCNT1 (fun _ => 0) ;;
  sei.

(** [get_key_press] returns the value of its local [key_mask] together
    with the store it leaves. *)
Definition get_key_press (key_mask : Z) (m : Machine) : Z * Machine :=
  let m := cli m in
  let key_mask := u8 (Z.land key_mask (rd m key_press)) in
  let m := xor_eq key_press key_mask m in
  let m := sei m in
  (key_mask, m).

Definition toggle_led : Cmd := xor_eq ledPort 255 ;; show.

Definition init_pcint : Cmd :=
  or_eq PCICR (bv PCIE1) ;;
  or_eq PCMSK1 (bv PCINT8).

(** The macros of <avr/sleep.h>. *)
Definition set_sleep_mode (mode : Z) : Cmd :=
  assign8 SMCR (fun m =>
    Z.lor (Z.land (rd m SMCR) (Z.lnot (Z.lor (bv SM0) (Z.lor (bv SM1) (bv SM2))))) mode).
Definition sleep_enable : Cmd := or_eq SMCR (bv SE).
Definition sleep_disable : Cmd := and_eq SMCR (Z.lnot (bv SE)).

(** Pin change interrupt (lines 292-297). *)
Definition ISR_PCINT1 : Cmd :=
  sleep_disable ;;
  and_eq PCICR (Z.lnot (bv PCIE1)) ;;
  and_eq PCMSK1 (Z.lnot (bv PCINT8)).

(** The halt instruction.  In power-down mode both timers are stopped and
    the only enabled wake-up source is the pin change interrupt armed by
    [init_pcint]: the instruction completes when that interrupt has been
    served. *)
Definition sleep_cpu : Cmd := emit Halt ;; ISR_PCINT1.

Definition sleep_mode : Cmd := sleep_enable ;; sleep_cpu ;; sleep_disable.

Definition sleep_now : Cmd :=
  cli ;;
  emit (Delay 500) ;;
  init_pcint ;;
  set_sleep_mode SLEEP_MODE_PWR_DOWN ;;
  sei ;;
  sleep_mode.

(** [initState(state)]: the parameter shadows the global of the same name
    and is called [st] here. *)
Definition initState (st : Z) : Cmd :=
  if st =? sweep then
    assign8 tracker (fun _ => 1) ;;
    assign8 direction (fun _ => 1) ;;
    start_timer1_compare sweepDelay
  else if st =? xor then
    assign8 ledPort (fun _ => 15) ;; show ;;
    start_timer1_compare xorDelay
  else if st =? flash then
    assign8 ledPort (fun _ => 255) ;; show ;;
    start_timer1_compare flashDelay
  else if st =? sleep then
    assign8 ledPort (fun _ => 0) ;; show ;;
    sleep_now ;;
    assign8 timer (fun _ => 1)
  else skip.

(** ** The main program (lines 212-264) *)

(** C truth of an integer, and conditionals on the store. *)
Definition truth (z : Z) : bool := negb (z =? 0).

Definition ifc (c : Machine -> bool) (c1 c2 : Cmd) : Cmd :=
  fun m => if c m then c1 m else c2 m.

(** The body of the [switch (state)] of the main loop, run when the
    [timer] flag is set. *)
Definition on_timer_tick : Cmd := fun m =>
  let s := rd m state in
  if s =? sweep then
    (ifc (fun m => truth (rd m direction))
       (assign8 tracker (fun m => Z.shiftl (rd m tracker) 1))
       (assign8 tracker (fun m => Z.shiftr (rd m tracker) 1)) ;;
     ifc (fun m => truth (Z.lor (Z.b2z (rd m tracker =? 1))
                                (Z.b2z (rd m tracker =? 128))))
       (xor_eq direction 1)
       skip ;;
     assign8 ledPort (fun m => rd m tracker) ;; show) m
  else if s =? xor then toggle_led m
  else if s =? flash then toggle_led m
  else if s =? sleep then
    (assign8 state (fun _ => sweep) ;;
     (fun m => initState (rd m state) m)) m
  else m.

(** [if (timer) { switch ...; timer = 0; }] *)
Definition main_timer : Cmd :=
  ifc (fun m => truth (rd m timer))
    (on_timer_tick ;; assign8 timer (fun _ => 0))
    skip.

(** The body of [if (get_key_press(1<<KEY0)) { ... }]. *)
Definition on_button_press : Cmd :=
  timer1_stop ;;
  assign8 timer (fun _ => 0) ;;
  assign8 state (fun m => rd m state + 1) ;;
  ifc (fun m => sleep <? rd m state) (assign8 state (fun _ => sweep)) skip ;;
  (fun m => initState (rd m state) m).

Definition main_key : Cmd := fun m =>
  let (k, m') := get_key_press (bv KEY0) m in
  if truth k then on_button_press m' else m'.

(** One turn of [while(1)]. *)
Definition loop_body : Cmd := main_timer ;; main_key.

(** What [main] does before it enters the loop. *)
Definition main_init : Cmd :=
  initIO ;;
  timer0_overflow ;;
  initTimer1_modes ;;
  assign8 state (fun _ => sweep) ;;
  (fun m => initState (rd m state) m).

(** ** Interrupt handling (lines 266-297) *)

Definition F_CPU : Z := 1000000.

(** The preload [(unsigned char)(signed short)-(F_CPU / 1024 * 10e-3 + 0.5)]:
    the integer quotient times a hundredth plus a half, truncated. *)
Definition TCNT0_preload : Z := u8 (- ((F_CPU / 1024 * 10 + 500) / 1000)).

(** Button debounce; [KEY_PIN] is the level read from PINC. *)
Definition ISR_TIMER0_OVF (KEY_PIN : Z) : Cmd := fun m =>
  let m := assign8 TCNT0 (fun _ => TCNT0_preload) m in
  let i := u8 (Z.lxor (rd m key_state) (Z.lnot KEY_PIN)) in
  let m := assign8 ct0 (fun m => Z.lnot (Z.land (rd m ct0) i)) m in
  let m := assign8 ct1 (fun m => Z.lxor (rd m ct0) (Z.land (rd m ct1) i)) m in
  let i := u8 (Z.land i (Z.land (rd m ct0) (rd m ct1))) in
  let m := xor_eq key_state i m in
  or_eq key_press (Z.land (rd m key_state) i) m.

Definition ISR_TIMER1_COMPA : Cmd := assign8 timer (fun _ => 1).

(** A debounced press of the button: the sampler raises bit [KEY0] of
    [key_press] and the main loop polls it. *)
Definition press : Cmd := or_eq key_press (bv KEY0) ;; main_key.

(** A period of Timer1 elapses: the compare interrupt raises the flag and
    the main loop acts on it. *)
Definition tick : Cmd := ISR_TIMER1_COMPA ;; main_timer.

(** ** The machine after reset *)

(** Every register used here resets to zero and the C runtime zeroes the
    variables. *)
Definition power_on : Machine := {| mem := fun _ => 0; trace := [] |}.

(** What happens between two observations of the machine. *)
Inductive Input : Type :=
  | Sample (KEY_PIN : Z)   (* Timer0 overflows *)
  | Compare                (* Timer1 reaches OCR1A *)
  | Turn.                  (* one turn of the main loop *)

Definition step (m : Machine) (i : Input) : Machine :=
  match i with
  | Sample pin => ISR_TIMER0_OVF pin m
  | Compare => ISR_TIMER1_COMPA m
  | Turn => loop_body m
  end.

Definition run (m : Machine) (ins : list Input) : Machine :=
  fold_left step ins m.

(** The machine is observed from the first turn of the loop on. *)
Definition booted : Machine := main_init power_on.


(** * Notions used by the properties *)

(** The four modes of the state machine. *)
Definition is_mode (s : Z) : Prop :=
  s = sweep \/ s = xor \/ s = flash \/ s = sleep.

(** The cyclic order of the specification: Sweep, Alternate, Flash,
    Suspended, and Sweep again. *)
Definition next_mode (s : Z) : Z :=
  if s =? sweep then xor
  else if s =? xor then flash
  else if s =? flash then sleep
  else sweep.

(** Timer1 counts when one of its clock select bits is set. *)
Definition timer1_clock (m : Machine) : Z :=
  Z.land (rd m TCCR1B) (Z.lor (bv CS12) (Z.lor (bv CS11) (bv CS10))).

Definition timer1_stopped (m : Machine) : Prop := timer1_clock m = 0.

(** The Timer1 period of each displaying mode. *)
Definition mode_delay (s : Z) : Z :=
  if s =? sweep then sweepDelay
  else if s =? xor then xorDelay
  else flashDelay.

(** The sweep case of the main loop on the two variables it works on,
    [tracker] and [direction]. *)
Definition sweep_step (td : Z * Z) : Z * Z :=
  let (t, d) := td in
  let t := u8 (if truth d then Z.shiftl t 1 else Z.shiftr t 1) in
  let d :=
    if truth (Z.lor (Z.b2z (t =? 1)) (Z.b2z (t =? 128)))
    then u8 (Z.lxor d 1) else d in
  (t, d).

(** The eight patterns with a single LED lit. *)
Definition one_hot : list Z := [1; 2; 4; 8; 16; 32; 64; 128].

(** The sweep invariant on [tracker] and [direction]: the pattern is a byte
    with exactly one bit set, the direction is 0 or 1, and at either end of
    the row the direction already points back inwards. *)
Definition sweep_ok (t d : Z) : bool :=
  (0 <=? t) && (t <? 256) && (popcount8 t =? 1)%nat &&
  ((d =? 0) || (d =? 1)) &&
  implb (t =? 1) (d =? 1) && implb (t =? 128) (d =? 0).

Definition sweep_inv (m : Machine) : Prop :=
  sweep_ok (rd m tracker) (rd m direction) = true.

(** ** The debounce routine on one bit

    The routine of [ISR(TIMER0_OVF_vect)] works on the eight bits in
    parallel: bit [b] of [ct1] and [ct0] is a two-bit counter for input
    [b].  [KeyBit] is the slice of the four variables at one bit. *)
Record KeyBit : Type := mkKeyBit {
  kb_state : bool;    (* bit of key_state: the debounced level, set = pressed *)
  kb_ct0 : bool;      (* bit of ct0 *)
  kb_ct1 : bool;      (* bit of ct1 *)
  kb_press : bool     (* bit of key_press: a press is pending *)
}.

Definition key_bit (m : Machine) (b : Z) : KeyBit :=
  {| kb_state := Z.testbit (rd m key_state) b;
     kb_ct0 := Z.testbit (rd m ct0) b;
     kb_ct1 := Z.testbit (rd m ct1) b;
     kb_press := Z.testbit (rd m key_press) b |}.

(** The assignments of the routine at one bit; [pin] is the level of
    the input line (low when the button is down). *)
Definition debounce_bit (pin : bool) (s : KeyBit) : KeyBit :=
  let i := xorb (kb_state s) (negb pin) in
  let c0 := negb (kb_ct0 s && i) in
  let c1 := xorb c0 (kb_ct1 s && i) in
  let i := i && (c0 && c1) in
  let st := xorb (kb_state s) i in
  {| kb_state := st; kb_ct0 := c0; kb_ct1 := c1;
     kb_press := kb_press s || (st && i) |}.

(** A run of consecutive Timer0 overflows with the given input levels. *)
Definition samples (pins : list Z) (m : Machine) : Machine :=
  fold_left (fun m pin => ISR_TIMER0_OVF pin m) pins m.

(** Both counter bits of input [b] are set: the counter is at rest. *)
Definition at_rest (m : Machine) (b : Z) : Prop :=
  Z.testbit (rd m ct0) b = true /\ Z.testbit (rd m ct1) b = true.

(** What holds of the machine whenever it is observed: the mode is one of
    the four, the sweep variables satisfy their invariant, the clock select
    bit CS12 that the program never touches is clear, the pending presses
    are a byte, and in Suspended the [timer] flag is raised. *)
Definition machine_inv (m : Machine) : Prop :=
  is_mode (rd m state) /\
  sweep_inv m /\
  Z.testbit (rd m TCCR1B) CS12 = false /\
  byte (rd m key_press) /\
  (rd m state = sleep -> rd m timer <> 0).

(** * Further notions *)

(** The pattern [initState] writes on entering Alternate or Flash. *)
Definition entry_pattern (s : Z) : Z := if s =? xor then 15 else 255.

(** Equality of two values of the sweep variables. *)
Definition same_sweep (a b : Z * Z) : bool :=
  (fst a =? fst b) && (snd a =? snd b).

(** The hardware set-up of [main]: port directions and pull-up, the Timer0
    prescaler and overflow interrupt, the Timer1 compare interrupt and CTC
    mode; the wake-up watch disarmed, sleep disabled and interrupts
    enabled. *)
Definition hw_config (m : Machine) : Prop :=
  rd m ledDDR = 255 /\ rd m KEY_DDR = 0 /\ rd m KEY_PORT = bv KEY0 /\
  rd m TCCR0B = Z.lor (bv CS02) (bv CS00) /\ rd m TIMSK0 = bv TOIE0 /\
  rd m TIMSK1 = bv OCIE1A /\ Z.testbit (rd m TCCR1B) WGM12 = true /\
  rd m PCICR = 0 /\ rd m PCMSK1 = 0 /\
  (rd m SMCR = 0 \/ rd m SMCR = SLEEP_MODE_PWR_DOWN) /\
  Z.testbit (rd m SREG) SREG_I = true.

(** Timer1 is stopped in Suspended; in the other modes it runs from the
    clock divided by 64 with the period of the mode in OCR1A. *)
Definition timer_matches_mode (m : Machine) : Prop :=
  if rd m state =? sleep then timer1_clock m = 0
  else timer1_clock m = Z.lor (bv CS11) (bv CS10) /\
       rd m OCR1A = mode_delay (rd m state).

(** What the LED port may show in each mode. *)
Definition led_matches_mode (m : Machine) : Prop :=
  let p := rd m ledPort in
  if rd m state =? sweep then
    p = rd m tracker \/
    (rd m tracker = 1 /\ rd m direction = 1 /\ (p = 255 \/ p = 0))
  else if rd m state =? xor then p = 15 \/ p = 240
  else if rd m state =? flash then p = 255 \/ p = 0
  else p = 0.

Definition observed_inv (m : Machine) : Prop :=
  machine_inv m /\ hw_config m /\ timer_matches_mode m /\ led_matches_mode m.

(** An input during which the button stays down: a sample that reads the
    line low, a compare match, or a turn of the loop. *)
Definition held_down (i : Input) : Prop :=
  match i with
  | Sample pin => Z.testbit pin KEY0 = false
  | Compare | Turn => True
  end.

(** Every halt in a trace comes straight after the LEDs were switched off
    and the delay was served. *)
Definition halts_dark (tr : list Event) : Prop :=
  forall pre post, tr = pre ++ Halt :: post ->
  exists pre', pre = pre' ++ [LedWrite 0; Delay 500].
(** * Reasoning about the store *)

Lemma rd_wr_eq (l : Loc) (v : Z) (m : Machine) : rd (wr l v m) l = v.
Proof. unfold rd, wr; simpl. destruct (Loc_eq_dec l l); congruence. Qed.

Lemma rd_wr_neq (l l' : Loc) (v : Z) (m : Machine) :
  l <> l' -> rd (wr l v m) l' = rd m l'.
Proof. intros H. unfold rd, wr; simpl. destruct (Loc_eq_dec l l'); congruence. Qed.

Lemma rd_emit (e : Event) (m : Machine) (l : Loc) : rd (emit e m) l = rd m l.
Proof. reflexivity. Qed.

Lemma trace_wr (l : Loc) (v : Z) (m : Machine) : trace (wr l v m) = trace m.
Proof. reflexivity. Qed.

Lemma trace_emit (e : Event) (m : Machine) : trace (emit e m) = trace m ++ [e].
Proof. reflexivity. Qed.

Lemma rd_assign8_eq (l : Loc) (e : Machine -> Z) (m : Machine) :
  rd (assign8 l e m) l = u8 (e m).
Proof. apply rd_wr_eq. Qed.

Lemma rd_assign8_neq (l l' : Loc) (e : Machine -> Z) (m : Machine) :
  l <> l' -> rd (assign8 l e m) l' = rd m l'.
Proof. apply rd_wr_neq. Qed.

(** Unfold the commands down to reads and writes, then resolve the reads. *)
Ltac unfold_cmds :=
  unfold toggle_led, sleep_now, sleep_mode, sleep_cpu, ISR_PCINT1,
    sleep_enable, sleep_disable, set_sleep_mode, init_pcint,
    start_timer1_compare, timer1_stop, cli, sei, show,
    or_eq, and_eq, xor_eq, assign8, assign16, ifc, skip, seqc,
    ledPort, ledDDR, KEY_PORT, KEY_DDR in *.

Ltac store :=
  repeat first
    [ rewrite rd_wr_eq
    | rewrite rd_wr_neq by discriminate
    | rewrite rd_emit
    | rewrite trace_wr
    | rewrite trace_emit ].

Ltac exec := unfold_cmds; store.

(** ** Bytes *)

Lemma u8_byte (x : Z) : byte (u8 x).
Proof. unfold byte, u8. change (2 ^ 8) with 256. apply Z.mod_pos_bound. lia. Qed.

Lemma u8_small (x : Z) : byte x -> u8 x = x.
Proof. intros H. unfold u8. apply Z.mod_small. exact H. Qed.

Lemma testbit_u8 (x i : Z) :
  0 <= i -> Z.testbit (u8 x) i = Z.testbit x i && (i <? 8).
Proof.
  intros Hi. unfold u8. destruct (Z.ltb_spec i 8).
  - rewrite Z.mod_pow2_bits_low by lia. now rewrite andb_true_r.
  - rewrite Z.mod_pow2_bits_high by lia. now rewrite andb_false_r.
Qed.

Lemma testbit_byte_high (x i : Z) : byte x -> 8 <= i -> Z.testbit x i = false.
Proof.
  intros Hx Hi. rewrite <- (u8_small x Hx), testbit_u8 by lia.
  destruct (Z.ltb_spec i 8); [lia | apply andb_false_r].
Qed.

(** Two integers are equal when they agree on every bit; bytes need only
    agree on the low eight. *)
Ltac testbits :=
  repeat first
    [ rewrite testbit_u8 by lia
    | rewrite Z.land_spec
    | rewrite Z.lor_spec
    | rewrite Z.lxor_spec
    | rewrite Z.ldiff_spec
    | rewrite Z.lnot_spec by lia ].

Lemma byte_bits_inj (x y : Z) :
  byte x -> byte y ->
  (forall i, 0 <= i < 8 -> Z.testbit x i = Z.testbit y i) -> x = y.
Proof.
  intros Hx Hy H. apply Z.bits_inj'. intros i Hi.
  destruct (Z.ltb_spec i 8).
  - apply H. lia.
  - now rewrite !testbit_byte_high by (assumption || lia).
Qed.

Lemma land_byte (a b : Z) : byte b -> byte (Z.land a b).
Proof.
  intros Hb. assert (E : Z.land a b = u8 (Z.land a b)).
  { apply Z.bits_inj'. intros i Hi. testbits.
    destruct (Z.ltb_spec i 8).
    - now rewrite andb_true_r.
    - rewrite (testbit_byte_high b) by (assumption || lia).
      now rewrite !andb_false_r. }
  rewrite E. apply u8_byte.
Qed.

(** Closed arithmetic facts, by evaluation. *)
Ltac by_compute :=
  unfold byte;
  repeat match goal with |- _ /\ _ => split end;
  first [ apply Z.leb_le | apply Z.ltb_lt | idtac ];
  vm_compute; reflexivity.

Lemma u8_idem (x : Z) : u8 (u8 x) = u8 x.
Proof. apply u8_small, u8_byte. Qed.

(** * Reading and clearing the pending presses *)

Lemma get_key_press_fst (key_mask : Z) (m : Machine) :
  fst (get_key_press key_mask m) = u8 (Z.land key_mask (rd m key_press)).
Proof. unfold get_key_press. simpl. exec. reflexivity. Qed.

Lemma get_key_press_pending (key_mask : Z) (m : Machine) :
  rd (snd (get_key_press key_mask m)) key_press =
  u8 (Z.lxor (rd m key_press) (u8 (Z.land key_mask (rd m key_press)))).
Proof. unfold get_key_press. simpl. exec. reflexivity. Qed.

Ltac bool_cases :=
  repeat match goal with
  | |- context [Z.testbit ?x ?i] => destruct (Z.testbit x i)
  end; try reflexivity; try discriminate.

(** C5: [get_key_press] returns the bits of the mask that are pending,
    clears exactly those bits of [key_press], and an immediate second call
    with the same mask returns zero and changes nothing. *)
Theorem get_key_press_read_and_clear (key_mask : Z) (m : Machine) :
  byte (rd m key_press) ->
  let r := fst (get_key_press key_mask m) in
  let m' := snd (get_key_press key_mask m) in
  r = Z.land key_mask (rd m key_press) /\
  rd m' key_press = Z.ldiff (rd m key_press) r /\
  fst (get_key_press key_mask m') = 0 /\
  rd (snd (get_key_press key_mask m')) key_press = rd m' key_press.
Proof.
  intros Hb r m'. subst r m'.
  rewrite !get_key_press_fst, !get_key_press_pending.
  set (kp := rd m key_press) in *.
  assert (Hr : u8 (Z.land key_mask kp) = Z.land key_mask kp)
    by (apply u8_small, land_byte, Hb).
  rewrite Hr.
  assert (Hc : u8 (Z.lxor kp (Z.land key_mask kp)) = Z.ldiff kp (Z.land key_mask kp)).
  { apply Z.bits_inj'. intros i Hi. testbits.
    destruct (Z.ltb_spec i 8).
    - bool_cases.
    - rewrite (testbit_byte_high kp i Hb) by lia. bool_cases. }
  rewrite Hc.
  assert (Hz : Z.land key_mask (Z.ldiff kp (Z.land key_mask kp)) = 0).
  { apply Z.bits_inj'. intros i Hi. testbits. rewrite Z.bits_0. bool_cases. }
  rewrite Hz. change (u8 0) with 0. rewrite Z.lxor_0_r.
  repeat split. apply u8_small.
  rewrite Z.ldiff_land, Z.land_comm. apply land_byte, Hb.
Qed.

(** A store with two presses pending, on bits 0 and 1. *)
Lemma get_key_press_read_and_clear_witness :
  let m := wr key_press 3 booted in
  fst (get_key_press 1 m) = Z.land 1 (rd m key_press) /\
  rd (snd (get_key_press 1 m)) key_press = 2 /\
  fst (get_key_press 1 (snd (get_key_press 1 m))) = 0.
Proof.
  intros m.
  assert (Hb : byte (rd m key_press)) by by_compute.
  destruct (get_key_press_read_and_clear 1 m Hb) as (H1 & H2 & H3 & _).
  split; [exact H1 | split; [ | exact H3]].
  rewrite H2. reflexivity.
Defined.

(** C10: [get_key_press] leaves every bit of [key_press] outside the mask
    as it was. *)
Theorem get_key_press_frame (key_mask : Z) (m : Machine) (i : Z) :
  byte (rd m key_press) ->
  Z.testbit key_mask i = false ->
  Z.testbit (rd (snd (get_key_press key_mask m)) key_press) i =
  Z.testbit (rd m key_press) i.
Proof.
  intros Hb Hm. rewrite get_key_press_pending.
  destruct (Z.ltb_spec i 0) as [Hneg | Hi].
  { now rewrite !Z.testbit_neg_r by lia. }
  testbits. rewrite Hm. simpl. rewrite xorb_false_r.
  destruct (Z.ltb_spec i 8).
  - apply andb_true_r.
  - rewrite (testbit_byte_high _ i Hb) by lia. reflexivity.
Qed.

Lemma get_key_press_frame_witness :
  Z.testbit (rd (snd (get_key_press 1 (wr key_press 3 booted))) key_press) 1 =
  Z.testbit (rd (wr key_press 3 booted) key_press) 1.
Proof.
  apply (get_key_press_frame 1 (wr key_press 3 booted) 1).
  - by_compute.
  - reflexivity.
Defined.

(** * What each function reads and writes

    One equation per function gives the value of every location after the
    call.  The status register, which only [cli] and [sei] touch, and the
    sleep and pin-change registers are left out where they play no part. *)

Ltac by_loc l := destruct l; try congruence; exec; reflexivity.

Lemma rd_start_timer1_compare (c : Z) (m : Machine) (l : Loc) :
  l <> SREG ->
  rd (start_timer1_compare c m) l =
  match l with
  | OCR1A => u16 c
  | TCCR1B => u8 (Z.lor (rd m TCCR1B) (Z.lor (bv CS11) (bv CS10)))
  | _ => rd m l
  end.
Proof. intros H. by_loc l. Qed.

Lemma trace_start_timer1_compare (c : Z) (m : Machine) :
  trace (start_timer1_compare c m) = trace m.
Proof. reflexivity. Qed.

Lemma rd_timer1_stop (m : Machine) (l : Loc) :
  l <> SREG ->
  rd (timer1_stop m) l =
  match l with
  | TCNT1 => 0
  | TCCR1B => u8 (Z.land (rd m TCCR1B) (Z.lnot (Z.lor (bv CS11) (bv CS10))))
  | _ => rd m l
  end.
Proof. intros H. by_loc l. Qed.

Lemma trace_timer1_stop (m : Machine) : trace (timer1_stop m) = trace m.
Proof. reflexivity. Qed.

Lemma rd_sleep_now (m : Machine) (l : Loc) :
  l <> SREG -> l <> PCICR -> l <> PCMSK1 -> l <> SMCR ->
  rd (sleep_now m) l = rd m l.
Proof. intros H1 H2 H3 H4. by_loc l. Qed.

Lemma trace_sleep_now (m : Machine) :
  trace (sleep_now m) = trace m ++ [Delay 500; Halt].
Proof. unfold_cmds. store. now rewrite <- app_assoc. Qed.

Lemma rd_toggle_led (m : Machine) (l : Loc) :
  rd (toggle_led m) l =
  match l with
  | PORTD => u8 (Z.lxor (rd m PORTD) 255)
  | _ => rd m l
  end.
Proof. by_loc l. Qed.

(** [initState], mode by mode. *)

Lemma rd_initState_sweep (m : Machine) (l : Loc) :
  l <> SREG ->
  rd (initState sweep m) l =
  match l with
  | tracker => 1
  | direction => 1
  | OCR1A => sweepDelay
  | TCCR1B => u8 (Z.lor (rd m TCCR1B) (Z.lor (bv CS11) (bv CS10)))
  | _ => rd m l
  end.
Proof. intros H. change (initState sweep) with
  (assign8 tracker (fun _ => 1) ;; assign8 direction (fun _ => 1) ;;
   start_timer1_compare sweepDelay). by_loc l. Qed.

Lemma trace_initState_sweep (m : Machine) : trace (initState sweep m) = trace m.
Proof. reflexivity. Qed.

Lemma rd_initState_xor (m : Machine) (l : Loc) :
  l <> SREG ->
  rd (initState xor m) l =
  match l with
  | PORTD => 15
  | OCR1A => xorDelay
  | TCCR1B => u8 (Z.lor (rd m TCCR1B) (Z.lor (bv CS11) (bv CS10)))
  | _ => rd m l
  end.
Proof. intros H. change (initState xor) with
  (assign8 ledPort (fun _ => 15) ;; show ;; start_timer1_compare xorDelay).
  by_loc l. Qed.

Lemma trace_initState_xor (m : Machine) :
  trace (initState xor m) = trace m ++ [LedWrite 15].
Proof. reflexivity. Qed.

Lemma rd_initState_flash (m : Machine) (l : Loc) :
  l <> SREG ->
  rd (initState flash m) l =
  match l with
  | PORTD => 255
  | OCR1A => flashDelay
  | TCCR1B => u8 (Z.lor (rd m TCCR1B) (Z.lor (bv CS11) (bv CS10)))
  | _ => rd m l
  end.
Proof. intros H. change (initState flash) with
  (assign8 ledPort (fun _ => 255) ;; show ;; start_timer1_compare flashDelay).
  by_loc l. Qed.

Lemma trace_initState_flash (m : Machine) :
  trace (initState flash m) = trace m ++ [LedWrite 255].
Proof. reflexivity. Qed.

Lemma rd_initState_sleep (m : Machine) (l : Loc) :
  l <> SREG -> l <> PCICR -> l <> PCMSK1 -> l <> SMCR ->
  rd (initState sleep m) l =
  match l with
  | PORTD => 0
  | timer => 1
  | _ => rd m l
  end.
Proof. intros H1 H2 H3 H4. change (initState sleep) with
  (assign8 ledPort (fun _ => 0) ;; show ;; sleep_now ;; assign8 timer (fun _ => 1)).
  by_loc l. Qed.

Lemma trace_initState_sleep (m : Machine) :
  trace (initState sleep m) = trace m ++ [LedWrite 0; Delay 500; Halt].
Proof.
  change (initState sleep) with
  (assign8 ledPort (fun _ => 0) ;; show ;; sleep_now ;; assign8 timer (fun _ => 1)).
  unfold_cmds. store. now rewrite <- !app_assoc.
Qed.

Lemma rd_initState_state (st : Z) (m : Machine) :
  rd (initState st m) state = rd m state.
Proof.
  unfold initState.
  destruct (st =? sweep); [exec; reflexivity|].
  destruct (st =? xor); [exec; reflexivity|].
  destruct (st =? flash); [exec; reflexivity|].
  destruct (st =? sleep); exec; reflexivity.
Qed.

(** * A button press *)

(** The press handler first brings the store to a state [m1] with the timer
    stopped, the flag cleared and the mode advanced, and then initialises
    the new mode from there. *)
Lemma on_button_press_entry (m : Machine) :
  let s := u8 (rd m state + 1) in
  let s' := if sleep <? s then sweep else s in
  exists m1,
    on_button_press m = initState s' m1 /\
    trace m1 = trace m /\
    forall l, l <> SREG ->
      rd m1 l =
      match l with
      | state => s'
      | timer => 0
      | TCNT1 => 0
      | TCCR1B => u8 (Z.land (rd m TCCR1B) (Z.lnot (Z.lor (bv CS11) (bv CS10))))
      | _ => rd m l
      end.
Proof.
  intros s s'.
  set (m0 := assign8 state (fun m => rd m state + 1)
               (assign8 timer (fun _ => 0) (timer1_stop m))).
  assert (Hs : rd m0 state = s).
  { subst m0. unfold assign8. store. now rewrite rd_timer1_stop by discriminate. }
  exists (ifc (fun m => sleep <? rd m state) (assign8 state (fun _ => sweep)) skip m0).
  unfold on_button_press, seqc. fold m0. unfold ifc. rewrite Hs. fold s'.
  assert (Hs' : rd (if sleep <? s then assign8 state (fun _ => sweep) m0 else skip m0) state = s').
  { subst s'. destruct (sleep <? s); [unfold assign8; store; reflexivity | exact Hs]. }
  rewrite Hs'. split; [reflexivity|]. split.
  { destruct (sleep <? s); reflexivity. }
  intros l Hl.
  destruct l; try exact Hs'; try congruence;
    (destruct (sleep <? s); subst m0; unfold assign8, skip; store;
     rewrite ?rd_timer1_stop by discriminate; reflexivity).
Qed.

Lemma rd_get_key_press (key_mask : Z) (m : Machine) (l : Loc) :
  l <> SREG -> l <> key_press ->
  rd (snd (get_key_press key_mask m)) l = rd m l.
Proof. intros H1 H2. unfold get_key_press. simpl. by_loc l. Qed.

Lemma trace_get_key_press (key_mask : Z) (m : Machine) :
  trace (snd (get_key_press key_mask m)) = trace m.
Proof. reflexivity. Qed.

(** Polling bit [KEY0] finds a press exactly when that bit is pending. *)
Lemma key0_pending (kp : Z) :
  truth (u8 (Z.land (bv KEY0) kp)) = Z.testbit kp KEY0.
Proof.
  change (bv KEY0) with (Z.ones 1). unfold KEY0.
  rewrite Z.land_comm, Z.land_ones by lia.
  change (2 ^ 1) with 2. rewrite <- Z.bit0_mod.
  destruct (Z.testbit kp 0); reflexivity.
Qed.

Lemma main_key_pressed (m : Machine) :
  Z.testbit (rd m key_press) KEY0 = true ->
  main_key m = on_button_press (snd (get_key_press (bv KEY0) m)).
Proof.
  intros H. unfold main_key.
  pose proof (get_key_press_fst (bv KEY0) m) as Hk.
  destruct (get_key_press (bv KEY0) m) as [k m']. cbn [fst snd] in *.
  now rewrite Hk, key0_pending, H.
Qed.

Lemma main_key_idle (m : Machine) :
  Z.testbit (rd m key_press) KEY0 = false ->
  main_key m = snd (get_key_press (bv KEY0) m).
Proof.
  intros H. unfold main_key.
  pose proof (get_key_press_fst (bv KEY0) m) as Hk.
  destruct (get_key_press (bv KEY0) m) as [k m']. cbn [fst snd] in *.
  now rewrite Hk, key0_pending, H.
Qed.


(** The C expression [if (++state > sleep) state = sweep] computes the
    cyclic successor of a mode. *)
Lemma advance_is_next_mode (s : Z) :
  is_mode s ->
  (if sleep <? u8 (s + 1) then sweep else u8 (s + 1)) = next_mode s.
Proof. intros [H | [H | [H | H]]]; subst s; reflexivity. Qed.

Lemma on_button_press_state (m : Machine) :
  is_mode (rd m state) ->
  rd (on_button_press m) state = next_mode (rd m state).
Proof.
  intros Hs. destruct (on_button_press_entry m) as (m1 & E & _ & Hrd).
  rewrite E, rd_initState_state, Hrd by discriminate.
  now apply advance_is_next_mode.
Qed.


(** * Arming and stopping Timer1 *)

Lemma testbit_high (x n i : Z) :
  0 <= x < 2 ^ n -> 0 <= n <= i -> Z.testbit x i = false.
Proof.
  intros Hx Hi. rewrite <- (Z.mod_small x (2 ^ n)) by exact Hx.
  apply Z.mod_pow2_bits_high. exact Hi.
Qed.

(** Setting and clearing the two clock select bits the program uses. *)
Lemma clock_bits_set (x : Z) :
  let y := u8 (Z.lor x (Z.lor (bv CS11) (bv CS10))) in
  Z.testbit y CS11 = true /\ Z.testbit y CS10 = true.
Proof.
  cbv zeta. unfold CS11, CS10. rewrite !testbit_u8 by lia.
  rewrite !Z.lor_spec. split; simpl; now rewrite orb_true_r.
Qed.

Lemma clock_bits_clear (x : Z) :
  let y := u8 (Z.land x (Z.lnot (Z.lor (bv CS11) (bv CS10)))) in
  Z.testbit y CS11 = false /\ Z.testbit y CS10 = false.
Proof.
  cbv zeta. unfold CS11, CS10. rewrite !testbit_u8 by lia.
  rewrite !Z.land_spec. split; simpl; now rewrite andb_false_r.
Qed.

Lemma clock_stopped (x : Z) :
  Z.testbit x CS12 = false ->
  Z.land (u8 (Z.land x (Z.lnot (Z.lor (bv CS11) (bv CS10)))))
         (Z.lor (bv CS12) (Z.lor (bv CS11) (bv CS10))) = 0.
Proof.
  intros H. apply Z.bits_inj'. intros i Hi. rewrite Z.bits_0.
  change (Z.lor (bv CS12) (Z.lor (bv CS11) (bv CS10))) with 7.
  change (Z.lor (bv CS11) (bv CS10)) with 3.
  testbits.
  assert (C : i = 0 \/ i = 1 \/ i = 2 \/ 3 <= i) by lia.
  destruct C as [-> | [-> | [-> | C]]].
  - simpl. now rewrite !andb_false_r.
  - simpl. now rewrite !andb_false_r.
  - unfold CS12 in H. rewrite H. reflexivity.
  - rewrite (testbit_high 7 3 i) by lia. apply andb_false_r.
Qed.

(** C3, as the program has it: [start_timer1_compare] loads the compare
    value and sets the clock select bits CS11 and CS10 but leaves the
    counter alone; [timer1_stop] clears those bits and zeroes the counter;
    the press handler stops before it arms, so after a press the counter is
    zero and, unless the new mode is Suspended, the period of the new mode
    is loaded and the clock enabled. *)
Theorem stop_resets_and_start_arms (cycle_count : Z) (m : Machine) :
  is_mode (rd m state) ->
  let a := start_timer1_compare cycle_count m in
  let s := timer1_stop m in
  let p := on_button_press m in
  (rd a OCR1A = u16 cycle_count /\ rd a TCNT1 = rd m TCNT1 /\
   Z.testbit (rd a TCCR1B) CS11 = true /\ Z.testbit (rd a TCCR1B) CS10 = true) /\
  (rd s TCNT1 = 0 /\
   Z.testbit (rd s TCCR1B) CS11 = false /\ Z.testbit (rd s TCCR1B) CS10 = false) /\
  (rd p TCNT1 = 0 /\
   (rd p state = sleep \/
    rd p OCR1A = mode_delay (rd p state) /\
    Z.testbit (rd p TCCR1B) CS11 = true /\ Z.testbit (rd p TCCR1B) CS10 = true)).
Proof.
  intros Hs a s p. subst a s p. split; [|split].
  - rewrite !rd_start_timer1_compare by discriminate.
    split; [reflexivity|]. split; [reflexivity|]. apply clock_bits_set.
  - rewrite !rd_timer1_stop by discriminate.
    split; [reflexivity|]. apply clock_bits_clear.
  - destruct (on_button_press_entry m) as (m1 & E & _ & Hrd).
    cbv zeta in E, Hrd.
    rewrite (advance_is_next_mode _ Hs) in E, Hrd. rewrite E.
    destruct Hs as [H | [H | [H | H]]]; rewrite H in *.
    + change (next_mode sweep) with xor.
      rewrite !rd_initState_xor, !Hrd by discriminate.
      split; [reflexivity|]. right. split; [reflexivity|]. apply clock_bits_set.
    + change (next_mode xor) with flash.
      rewrite !rd_initState_flash, !Hrd by discriminate.
      split; [reflexivity|]. right. split; [reflexivity|]. apply clock_bits_set.
    + change (next_mode flash) with sleep.
      rewrite !rd_initState_sleep, !Hrd by discriminate.
      split; [reflexivity|]. left. reflexivity.
    + change (next_mode sleep) with sweep.
      rewrite !rd_initState_sweep, !Hrd by discriminate.
      split; [reflexivity|]. right. split; [reflexivity|]. apply clock_bits_set.
Qed.

Lemma stop_resets_and_start_arms_witness :
  rd (start_timer1_compare xorDelay booted) TCNT1 = rd booted TCNT1 /\
  rd (timer1_stop booted) TCNT1 = 0 /\
  rd (on_button_press booted) TCNT1 = 0.
Proof.
  assert (Hs : is_mode (rd booted state)) by (left; reflexivity).
  destruct (stop_resets_and_start_arms xorDelay booted Hs)
    as ((_ & H1 & _) & (H2 & _) & (H3 & _)).
  repeat split; assumption.
Defined.

(** C3 as stated fails: arming a running timer whose counter stands at 100
    leaves the counter at 100. *)
Lemma arming_keeps_stale_count :
  timer1_clock (wr TCNT1 100 booted) = 3 /\
  rd (start_timer1_compare xorDelay (wr TCNT1 100 booted)) TCNT1 = 100.
Proof. split; vm_compute; reflexivity. Qed.

(** C6: when the loop finds a press pending, it stops Timer1 (clock select
    cleared, counter zero) and clears the [timer] flag before it initialises
    the new mode; a press in Flash leaves the mode Suspended, the LED port
    at 0x00 and the chip halted once by [sleep_now], the timer still
    stopped. *)
Theorem press_stops_timer_before_entering (m : Machine) :
  Z.testbit (rd m key_press) KEY0 = true ->
  Z.testbit (rd m TCCR1B) CS12 = false ->
  (exists m1,
     main_key m = initState (rd m1 state) m1 /\
     timer1_stopped m1 /\ rd m1 TCNT1 = 0 /\ rd m1 timer = 0 /\
     trace m1 = trace m) /\
  (rd m state = flash ->
     let m2 := main_key m in
     rd m2 state = sleep /\ rd m2 ledPort = 0 /\
     timer1_stopped m2 /\ rd m2 TCNT1 = 0 /\
     trace m2 = trace m ++ [LedWrite 0; Delay 500; Halt]).
Proof.
  intros Hk Hc. rewrite (main_key_pressed m Hk).
  set (m0 := snd (get_key_press (bv KEY0) m)).
  assert (H0 : forall l, l <> SREG -> l <> key_press -> rd m0 l = rd m l)
    by (intros; now apply rd_get_key_press).
  destruct (on_button_press_entry m0) as (m1 & E & Ht & Hrd).
  cbv zeta in E, Hrd. rewrite H0 in E, Hrd by discriminate.
  assert (Hstop : timer1_stopped m1).
  { unfold timer1_stopped, timer1_clock. rewrite Hrd, H0 by discriminate.
    now apply clock_stopped. }
  split.
  - exists m1. rewrite E, !Hrd by discriminate. repeat split; trivial.
  - intros Hf m2. subst m2. rewrite Hf in E, Hrd.
    change (if sleep <? u8 (flash + 1) then sweep else u8 (flash + 1))
      with sleep in E, Hrd.
    rewrite E. unfold ledPort.
    rewrite !rd_initState_sleep, !Hrd, trace_initState_sleep, Ht by discriminate.
    repeat split; try reflexivity.
    unfold timer1_stopped, timer1_clock.
    rewrite rd_initState_sleep by discriminate. exact Hstop.
Qed.

(** The machine in Flash with a press pending. *)
Lemma press_stops_timer_before_entering_witness :
  let m := wr key_press 1 (Nat.iter 2 press booted) in
  rd m state = flash /\
  rd (main_key m) state = sleep /\ rd (main_key m) ledPort = 0 /\
  timer1_stopped (main_key m).
Proof.
  intros m.
  assert (Hk : Z.testbit (rd m key_press) KEY0 = true) by reflexivity.
  assert (Hc : Z.testbit (rd m TCCR1B) CS12 = false) by (vm_compute; reflexivity).
  assert (Hf : rd m state = flash) by (vm_compute; reflexivity).
  destruct (press_stops_timer_before_entering m Hk Hc) as (_ & H).
  destruct (H Hf) as (H1 & H2 & H3 & _).
  repeat split; assumption.
Defined.

(** * Waking up *)

Lemma on_timer_tick_sleep (m : Machine) :
  rd m state = sleep ->
  on_timer_tick m = initState sweep (assign8 state (fun _ => sweep) m).
Proof.
  intros H. unfold on_timer_tick. rewrite H. cbn [Z.eqb sleep sweep xor flash].
  unfold seqc. now rewrite rd_assign8_eq.
Qed.

Lemma main_timer_idle (m : Machine) : rd m timer = 0 -> main_timer m = m.
Proof. intros H. unfold main_timer, ifc. now rewrite H. Qed.

(** C7: [initState(sleep)] returns from [sleep_now] with the [timer] flag
    raised; the loop's handling of that one tick resets the mode to Sweep
    with [tracker] 0x01, [direction] ascending and the sweep period armed,
    writes nothing to the LEDs, and consumes the flag, so that no second
    tick is handled. *)
Theorem wake_reenters_sweep (m : Machine) :
  rd m state = sleep ->
  let m1 := initState sleep m in
  let m2 := main_timer m1 in
  (rd m1 timer = 1 /\ rd m1 state = sleep) /\
  (rd m2 state = sweep /\ rd m2 tracker = 1 /\ rd m2 direction = 1 /\
   rd m2 OCR1A = sweepDelay) /\
  (rd m2 timer = 0 /\ main_timer m2 = m2) /\
  (rd m2 ledPort = 0 /\ trace m2 = trace m1).
Proof.
  intros Hs m1 m2.
  assert (H1 : rd m1 timer = 1)
    by (subst m1; now rewrite rd_initState_sleep by discriminate).
  assert (H1s : rd m1 state = sleep)
    by (subst m1; now rewrite rd_initState_state).
  assert (E : m2 = assign8 timer (fun _ => 0)
                     (initState sweep (assign8 state (fun _ => sweep) m1))).
  { subst m2. unfold main_timer, ifc. rewrite H1. cbn [truth Z.eqb negb].
    unfold seqc. now rewrite on_timer_tick_sleep. }
  assert (R : forall l, l <> SREG -> l <> timer ->
            rd m2 l = rd (initState sweep (assign8 state (fun _ => sweep) m1)) l).
  { intros l H H'. rewrite E. now rewrite rd_assign8_neq by congruence. }
  assert (H2t : rd m2 timer = 0) by (rewrite E; now rewrite rd_assign8_eq).
  split; [now split|]. split; [|split].
  - rewrite !R, !rd_initState_sweep by discriminate.
    rewrite rd_assign8_eq. repeat split.
  - split; [exact H2t | now apply main_timer_idle].
  - unfold ledPort. rewrite R, rd_initState_sweep by discriminate.
    rewrite rd_assign8_neq by discriminate.
    subst m1. rewrite rd_initState_sleep by discriminate.
    split; [reflexivity|]. rewrite E. reflexivity.
Qed.

(** The machine put to sleep from Flash. *)
Lemma wake_reenters_sweep_witness :
  let m := wr state sleep booted in
  rd (main_timer (initState sleep m)) state = sweep /\
  rd (main_timer (initState sleep m)) tracker = 1 /\
  rd (main_timer (initState sleep m)) direction = 1.
Proof.
  intros m.
  assert (Hs : rd m state = sleep) by reflexivity.
  destruct (wake_reenters_sweep m Hs) as (_ & (H1 & H2 & H3 & _) & _).
  repeat split; assumption.
Defined.

(** * The sweep *)

Lemma tick_eq (m : Machine) :
  tick m = assign8 timer (fun _ => 0) (on_timer_tick (assign8 timer (fun _ => 1) m)).
Proof. reflexivity. Qed.

(** In Sweep mode the tick handler applies [sweep_step] to the two sweep
    variables and shows the new pattern. *)
Lemma on_timer_tick_sweep (m : Machine) :
  rd m state = sweep ->
  let td := sweep_step (rd m tracker, rd m direction) in
  (forall l, rd (on_timer_tick m) l =
     match l with
     | tracker => fst td
     | direction => snd td
     | PORTD => fst td
     | _ => rd m l
     end) /\
  trace (on_timer_tick m) = trace m ++ [LedWrite (fst td)].
Proof.
  intros Hs td.
  unfold on_timer_tick. rewrite Hs.
  cbn [Z.eqb sweep]. cbv beta delta [seqc ifc skip].
  subst td. unfold sweep_step. cbn [fst snd].
  destruct (truth (rd m direction));
  rewrite !rd_assign8_eq; cbv beta;
  (destruct (truth _));
  (split; [intros l; destruct l |]);
  unfold_cmds; store; rewrite ?u8_idem; reflexivity.
Qed.

Lemma main_timer_fired (m : Machine) :
  rd m timer <> 0 ->
  main_timer m = assign8 timer (fun _ => 0) (on_timer_tick m).
Proof.
  intros H. unfold main_timer, ifc, truth.
  apply Z.eqb_neq in H. now rewrite H.
Qed.

(** A tick in Sweep mode: one [sweep_step], and the flag is consumed. *)
Lemma tick_sweep (m : Machine) :
  rd m state = sweep ->
  let td := sweep_step (rd m tracker, rd m direction) in
  (forall l, rd (tick m) l =
     match l with
     | tracker => fst td
     | direction => snd td
     | PORTD => fst td
     | timer => 0
     | _ => rd m l
     end) /\
  trace (tick m) = trace m ++ [LedWrite (fst td)].
Proof.
  intros Hs td. rewrite tick_eq.
  set (m0 := assign8 timer (fun _ => 1) m).
  assert (H0 : forall l, l <> timer -> rd m0 l = rd m l)
    by (intros l Hl; subst m0; now rewrite rd_assign8_neq by congruence).
  assert (Hs0 : rd m0 state = sweep) by (now rewrite H0 by discriminate).
  destruct (on_timer_tick_sweep m0 Hs0) as (Hrd & Htr). cbv zeta in Hrd, Htr.
  rewrite !H0 in Hrd, Htr by discriminate. fold td in Hrd, Htr.
  split.
  - intros l. destruct (Loc_eq_dec timer l) as [<- | N].
    + now rewrite rd_assign8_eq.
    + rewrite rd_assign8_neq, Hrd by exact N.
      destruct l; try reflexivity; try congruence; now apply H0.
  - change (trace (assign8 timer (fun _ => 0) (on_timer_tick m0)))
      with (trace (on_timer_tick m0)).
    now rewrite Htr.
Qed.

Lemma tick_sweep_at (m : Machine) (t d : Z) :
  rd m state = sweep -> rd m tracker = t -> rd m direction = d ->
  let td := sweep_step (t, d) in
  rd (tick m) state = sweep /\
  rd (tick m) tracker = fst td /\ rd (tick m) direction = snd td /\
  rd (tick m) ledPort = fst td /\
  trace (tick m) = trace m ++ [LedWrite (fst td)].
Proof.
  intros Hs Ht Hd td. destruct (tick_sweep m Hs) as (Hrd & Htr).
  cbv zeta in Hrd, Htr. rewrite Ht, Hd in Hrd, Htr. fold td in Hrd, Htr.
  unfold ledPort. rewrite !Hrd. repeat split; trivial.
Qed.

(** The bytes with exactly one bit set are the eight powers of two. *)
Lemma popcount8_one_hot (t : Z) :
  byte t -> popcount8 t = 1%nat -> In t one_hot.
Proof.
  intros Hb Hp.
  assert (A : forallb (fun n => implb (popcount8 (Z.of_nat n) =? 1)%nat
                                  (existsb (Z.eqb (Z.of_nat n)) one_hot))
                (List.seq 0 256) = true) by (vm_compute; reflexivity).
  rewrite forallb_forall in A.
  specialize (A (Z.to_nat t)).
  rewrite Z2Nat.id in A by apply Hb.
  rewrite Hp, Nat.eqb_refl in A. cbn [implb] in A.
  assert (I : In (Z.to_nat t) (List.seq 0 256)).
  { apply in_seq. unfold byte in Hb. lia. }
  apply A in I. apply existsb_exists in I. destruct I as (x & Hx & Ex).
  apply Z.eqb_eq in Ex. now subst x.
Qed.

Lemma sweep_ok_cases (t d : Z) :
  sweep_ok t d = true ->
  In t one_hot /\ (d = 0 \/ d = 1) /\ (t = 1 -> d = 1) /\ (t = 128 -> d = 0).
Proof.
  unfold sweep_ok. rewrite !andb_true_iff, orb_true_iff.
  intros (((((H0 & H1) & Hp) & Hd) & Ha) & Hz).
  apply Z.leb_le in H0. apply Z.ltb_lt in H1. apply Nat.eqb_eq in Hp.
  rewrite !Z.eqb_eq in Hd.
  split; [apply popcount8_one_hot; [split|]; assumption|].
  split; [exact Hd|]. split; intros E; subst t; simpl in *;
    destruct Hd as [-> | ->]; trivial; discriminate.
Qed.

(** The invariant survives a step, and the direction changes exactly when
    the new pattern is at an end of the row. *)
Lemma sweep_step_ok (t d : Z) :
  sweep_ok t d = true ->
  let td := sweep_step (t, d) in
  sweep_ok (fst td) (snd td) = true /\
  popcount8 (fst td) = 1%nat /\
  (snd td <> d <-> fst td = 1 \/ fst td = 128).
Proof.
  intros H. apply sweep_ok_cases in H. destruct H as (Ht & Hd & Ha & Hz).
  unfold one_hot in Ht. simpl in Ht.
  repeat (destruct Ht as [Ht | Ht]; [subst t|]); try contradiction;
    (destruct Hd as [-> | ->];
     [ try (specialize (Ha eq_refl); discriminate)
     | try (specialize (Hz eq_refl); discriminate) ]);
    vm_compute; (split; [reflexivity|]); (split; [reflexivity|]);
    (split; [intros F; try (exfalso; apply F; reflexivity); auto
            | intros [F | F]; try discriminate F; intros G; discriminate G]).
Qed.

Lemma sweep_inv_initState (m : Machine) : sweep_inv (initState sweep m).
Proof.
  unfold sweep_inv. now rewrite !rd_initState_sweep by discriminate.
Qed.

Lemma sweep_inv_tick (m : Machine) :
  rd m state = sweep -> sweep_inv m ->
  rd (tick m) state = sweep /\ sweep_inv (tick m) /\
  popcount8 (rd (tick m) tracker) = 1%nat /\
  rd (tick m) ledPort = rd (tick m) tracker /\
  (rd (tick m) direction <> rd m direction <->
   rd (tick m) tracker = 1 \/ rd (tick m) tracker = 128).
Proof.
  intros Hs Hi.
  destruct (tick_sweep_at m _ _ Hs eq_refl eq_refl) as (H1 & H2 & H3 & H4 & _).
  destruct (sweep_step_ok _ _ Hi) as (K1 & K2 & K3).
  cbv zeta in *. unfold sweep_inv. rewrite H1, H2, H3, H4. auto.
Qed.

(** C2: entering Sweep establishes the sweep invariant with pattern 0x01,
    ascending; a tick in Sweep mode preserves it, displays a pattern with
    exactly one bit set, and changes the direction exactly when the new
    pattern is 0x01 or 0x80; hence after any number of ticks the pattern
    still has one bit set and has not been shifted out. *)
Theorem sweep_invariant (m : Machine) :
  (sweep_inv (initState sweep m) /\
   rd (initState sweep m) tracker = 1 /\ rd (initState sweep m) direction = 1) /\
  (rd m state = sweep -> sweep_inv m ->
   let m' := tick m in
   sweep_inv m' /\
   popcount8 (rd m' tracker) = 1%nat /\
   rd m' ledPort = rd m' tracker /\
   (rd m' direction <> rd m direction <->
    rd m' tracker = 1 \/ rd m' tracker = 128)) /\
  (rd m state = sweep ->
   forall n : nat,
   let mn := Nat.iter n tick (initState sweep m) in
   sweep_inv mn /\ popcount8 (rd mn tracker) = 1%nat /\ rd mn tracker <> 0).
Proof.
  split; [|split].
  - split; [apply sweep_inv_initState|].
    now rewrite !rd_initState_sweep by discriminate.
  - intros Hs Hi m'. subst m'.
    destruct (sweep_inv_tick m Hs Hi) as (_ & H). exact H.
  - intros Hs n.
    assert (A : rd (Nat.iter n tick (initState sweep m)) state = sweep /\
                sweep_inv (Nat.iter n tick (initState sweep m))).
    { induction n as [|n [IHs IHi]].
      - change (Nat.iter 0 tick (initState sweep m)) with (initState sweep m).
        split; [now rewrite rd_initState_state | apply sweep_inv_initState].
      - change (Nat.iter (S n) tick (initState sweep m))
          with (tick (Nat.iter n tick (initState sweep m))).
        destruct (sweep_inv_tick _ IHs IHi) as (H1 & H2 & _). now split. }
    destruct A as (_ & A). cbv zeta. split; [exact A|].
    apply sweep_ok_cases in A. destruct A as (Ht & _).
    unfold one_hot in Ht. simpl in Ht.
    repeat (destruct Ht as [Ht | Ht]; [rewrite <- Ht; split; [reflexivity | discriminate]|]).
    contradiction.
Qed.

Lemma sweep_invariant_witness :
  sweep_inv (tick booted) /\ popcount8 (rd (tick booted) tracker) = 1%nat /\
  sweep_inv (Nat.iter 20 tick (initState sweep booted)).
Proof.
  destruct (sweep_invariant booted) as (_ & H & K).
  assert (Hs : rd booted state = sweep) by reflexivity.
  assert (Hi : sweep_inv booted) by reflexivity.
  destruct (H Hs Hi) as (H1 & H2 & _).
  destruct (K Hs 20%nat) as (K1 & _).
  repeat split; assumption.
Defined.

(** C8: from a fresh entry into Sweep, three ticks display 0x02, 0x04 and
    0x08 and leave the direction ascending; four more bring the pattern to
    0x80, and the tick after that displays 0x40 with the direction
    descending. *)
Theorem sweep_scenarios (m : Machine) :
  rd m state = sweep ->
  let m0 := initState sweep m in
  let m1 := tick m0 in
  let m2 := tick m1 in
  let m3 := tick m2 in
  let m7 := Nat.iter 4 tick m3 in
  let m8 := tick m7 in
  (rd m1 ledPort = 2 /\ rd m2 ledPort = 4 /\ rd m3 ledPort = 8) /\
  (rd m1 direction = 1 /\ rd m2 direction = 1 /\ rd m3 direction = 1) /\
  trace m3 = trace m ++ [LedWrite 2; LedWrite 4; LedWrite 8] /\
  (rd m7 ledPort = 128 /\ rd m7 tracker = 128) /\
  (rd m8 ledPort = 64 /\ rd m8 direction = 0 /\
   trace m8 = trace m7 ++ [LedWrite 64]).
Proof.
  intros Hs m0 m1 m2 m3 m7 m8.
  assert (S0 : rd m0 state = sweep) by (subst m0; now rewrite rd_initState_state).
  assert (T0 : rd m0 tracker = 1)
    by (subst m0; now rewrite rd_initState_sweep by discriminate).
  assert (D0 : rd m0 direction = 1)
    by (subst m0; now rewrite rd_initState_sweep by discriminate).
  assert (Tr0 : trace m0 = trace m) by reflexivity.
  destruct (tick_sweep_at m0 _ _ S0 T0 D0) as (S1 & T1 & D1 & L1 & Tr1).
  fold m1 in S1, T1, D1, L1, Tr1.
  destruct (tick_sweep_at m1 _ _ S1 T1 D1) as (S2 & T2 & D2 & L2 & Tr2).
  fold m2 in S2, T2, D2, L2, Tr2.
  destruct (tick_sweep_at m2 _ _ S2 T2 D2) as (S3 & T3 & D3 & L3 & Tr3).
  fold m3 in S3, T3, D3, L3, Tr3.
  destruct (tick_sweep_at m3 _ _ S3 T3 D3) as (S4 & T4 & D4 & _).
  destruct (tick_sweep_at _ _ _ S4 T4 D4) as (S5 & T5 & D5 & _).
  destruct (tick_sweep_at _ _ _ S5 T5 D5) as (S6 & T6 & D6 & _).
  destruct (tick_sweep_at _ _ _ S6 T6 D6) as (S7 & T7 & D7 & L7 & _).
  change (tick (tick (tick (tick m3)))) with m7 in S7, T7, D7, L7.
  destruct (tick_sweep_at m7 _ _ S7 T7 D7) as (S8 & T8 & D8 & L8 & Tr8).
  fold m8 in S8, T8, D8, L8, Tr8.
  split; [now repeat split|]. split; [now repeat split|]. split.
  { rewrite Tr3, Tr2, Tr1, Tr0, <- !app_assoc. reflexivity. }
  split; now repeat split.
Qed.

Lemma sweep_scenarios_witness :
  rd (tick (initState sweep booted)) ledPort = 2 /\
  rd (Nat.iter 8 tick (initState sweep booted)) ledPort = 64 /\
  rd (Nat.iter 8 tick (initState sweep booted)) direction = 0.
Proof.
  assert (Hs : rd booted state = sweep) by reflexivity.
  destruct (sweep_scenarios booted Hs) as ((H1 & _) & _ & _ & _ & (H8 & D8 & _)).
  repeat split; assumption.
Defined.

(** C9: entering Sweep writes nothing to the LED port, so what was shown
    before (0xFF after start-up) stays until the first tick, and the first
    pattern written after the entry is 0x02, not the reset value 0x01. *)
Theorem enter_sweep_keeps_leds (m : Machine) :
  rd m state = sweep ->
  let m0 := initState sweep m in
  (rd m0 ledPort = rd m ledPort /\ trace m0 = trace m) /\
  rd m0 tracker = 1 /\
  (rd (tick m0) ledPort = 2 /\ trace (tick m0) = trace m ++ [LedWrite 2]) /\
  (rd booted ledPort = 255 /\ trace booted = [LedWrite 255]).
Proof.
  intros Hs m0.
  assert (S0 : rd m0 state = sweep) by (subst m0; now rewrite rd_initState_state).
  assert (T0 : rd m0 tracker = 1)
    by (subst m0; now rewrite rd_initState_sweep by discriminate).
  assert (D0 : rd m0 direction = 1)
    by (subst m0; now rewrite rd_initState_sweep by discriminate).
  destruct (tick_sweep_at m0 _ _ S0 T0 D0) as (_ & _ & _ & L1 & Tr1).
  split; [|split; [exact T0 | split; [split; [exact L1 | exact Tr1] | split; reflexivity]]].
  subst m0. unfold ledPort. rewrite rd_initState_sweep by discriminate.
  split; reflexivity.
Qed.

Lemma enter_sweep_keeps_leds_witness :
  rd (initState sweep booted) ledPort = 255 /\
  rd (tick (initState sweep booted)) ledPort = 2.
Proof.
  assert (Hs : rd booted state = sweep) by reflexivity.
  destruct (enter_sweep_keeps_leds booted Hs) as ((H0 & _) & _ & (H1 & _) & _).
  split; [rewrite H0; reflexivity | exact H1].
Defined.

(** * The debounce routine *)

Lemma rd_ISR_TIMER0_OVF (pin : Z) (m : Machine) :
  let i := u8 (Z.lxor (rd m key_state) (Z.lnot pin)) in
  let c0 := u8 (Z.lnot (Z.land (rd m ct0) i)) in
  let c1 := u8 (Z.lxor c0 (Z.land (rd m ct1) i)) in
  let i' := u8 (Z.land i (Z.land c0 c1)) in
  let st := u8 (Z.lxor (rd m key_state) i') in
  forall l,
  rd (ISR_TIMER0_OVF pin m) l =
  match l with
  | TCNT0 => TCNT0_preload
  | ct0 => c0
  | ct1 => c1
  | key_state => st
  | key_press => u8 (Z.lor (rd m key_press) (Z.land st i'))
  | _ => rd m l
  end.
Proof.
  intros i c0 c1 i' st l. subst i c0 c1 i' st.
  unfold ISR_TIMER0_OVF. cbv zeta.
  destruct l; unfold_cmds; store; reflexivity.
Qed.

Lemma trace_ISR_TIMER0_OVF (pin : Z) (m : Machine) :
  trace (ISR_TIMER0_OVF pin m) = trace m.
Proof. reflexivity. Qed.

(** The routine acts on each of the eight bits as [debounce_bit] does. *)
Lemma ISR_TIMER0_OVF_bit (pin : Z) (m : Machine) (b : Z) :
  0 <= b < 8 ->
  key_bit (ISR_TIMER0_OVF pin m) b = debounce_bit (Z.testbit pin b) (key_bit m b).
Proof.
  intros Hb. unfold key_bit, debounce_bit. cbn [kb_state kb_ct0 kb_ct1 kb_press].
  rewrite !rd_ISR_TIMER0_OVF. cbv zeta.
  assert (L : (b <? 8) = true) by (apply Z.ltb_lt; lia).
  testbits. rewrite L, !andb_true_r.
  destruct (Z.testbit (rd m key_state) b), (Z.testbit (rd m ct0) b),
    (Z.testbit (rd m ct1) b), (Z.testbit (rd m key_press) b),
    (Z.testbit pin b); reflexivity.
Qed.

Lemma samples_bit (pins : list Z) (m : Machine) (b : Z) :
  0 <= b < 8 ->
  key_bit (samples pins m) b =
  fold_left (fun s pin => debounce_bit (Z.testbit pin b) s) pins (key_bit m b).
Proof.
  intros Hb. revert m. induction pins as [|p pins IH]; intros m.
  - reflexivity.
  - cbn [samples fold_left]. fold (samples pins (ISR_TIMER0_OVF p m)).
    now rewrite IH, ISR_TIMER0_OVF_bit.
Qed.

(** Samples that all show the same level at bit [b] iterate one function. *)
Lemma fold_same_level (b : Z) (v : bool) (pins : list Z) (s : KeyBit) :
  Forall (fun pin => Z.testbit pin b = v) pins ->
  fold_left (fun s pin => debounce_bit (Z.testbit pin b) s) pins s =
  Nat.iter (length pins) (debounce_bit v) s.
Proof.
  intros H. revert s. induction H as [|p pins Hp _ IH]; intros s.
  - reflexivity.
  - cbn [fold_left length]. now rewrite IH, Hp, Nat.iter_succ_r.
Qed.

(** The counter at rest counts four differing samples: the first three
    leave the debounced level and the pending bit alone, the fourth toggles
    the level, flags a press if the new level is "pressed", and leaves the
    counter at rest. *)
Lemma count_to_four (st kp : bool) :
  let s := mkKeyBit st true true kp in
  Nat.iter 1 (debounce_bit st) s = mkKeyBit st false true kp /\
  Nat.iter 2 (debounce_bit st) s = mkKeyBit st true false kp /\
  Nat.iter 3 (debounce_bit st) s = mkKeyBit st false false kp /\
  Nat.iter 4 (debounce_bit st) s = mkKeyBit (negb st) true true (kp || negb st).
Proof. destruct st, kp; repeat split. Qed.

(** A sample that agrees with the debounced level resets the counter. *)
Lemma agree_resets (s : KeyBit) :
  debounce_bit (negb (kb_state s)) s =
  mkKeyBit (kb_state s) true true (kb_press s).
Proof. destruct s as [[] [] [] []]; reflexivity. Qed.

Lemma held_is_stable (n : nat) :
  Nat.iter n (debounce_bit false) (mkKeyBit true true true false) =
  mkKeyBit true true true false.
Proof. induction n as [|n IH]; [reflexivity|]. cbn [Nat.iter nat_rect]. 
  change (Nat.iter n (debounce_bit false) (mkKeyBit true true true false))
    with (nat_rect (fun _ => KeyBit) (mkKeyBit true true true false)
            (fun _ => debounce_bit false) n) in IH.
  now rewrite IH. Qed.

Lemma testbit_bv (b : Z) : 0 <= b -> Z.testbit (bv b) b = true.
Proof.
  intros H. unfold bv. rewrite Z.shiftl_spec by exact H.
  now rewrite Z.sub_diag.
Qed.

(** Polling bit [b] clears the pending bit and nothing else of the slice. *)
Lemma key_bit_get_key_press (m : Machine) (b : Z) :
  0 <= b < 8 ->
  key_bit (snd (get_key_press (bv b) m)) b =
  mkKeyBit (kb_state (key_bit m b)) (kb_ct0 (key_bit m b))
           (kb_ct1 (key_bit m b)) false.
Proof.
  intros Hb. unfold key_bit. cbn [kb_state kb_ct0 kb_ct1 kb_press].
  rewrite get_key_press_pending, !rd_get_key_press by discriminate.
  f_equal. testbits. rewrite testbit_bv by lia.
  assert (L : (b <? 8) = true) by (apply Z.ltb_lt; lia).
  rewrite L. now destruct (Z.testbit (rd m key_press) b).
Qed.

Lemma key_bit_at_rest (m : Machine) (b : Z) :
  at_rest m b ->
  key_bit m b =
  mkKeyBit (Z.testbit (rd m key_state) b) true true (Z.testbit (rd m key_press) b).
Proof. intros [H0 H1]. unfold key_bit. now rewrite H0, H1. Qed.

(** C4, as the routine has it: with the counter of a bit at rest, the
    debounced level of that bit changes at the fourth consecutive sample
    that differs from it and not before.  Up to three differing samples
    change neither the level nor the pending bit, and a sample that agrees
    puts the counter back to rest; four differing samples toggle the level
    and flag a press when the new level is "pressed"; and once that press
    has been polled, holding the button flags no second one. *)
Theorem debounce_four_samples (m : Machine) (b : Z) :
  0 <= b < 8 ->
  at_rest m b ->
  let differs pin := Z.testbit pin b = Z.testbit (rd m key_state) b in
  (forall pins, Forall differs pins -> (length pins < 4)%nat ->
     let m' := samples pins m in
     Z.testbit (rd m' key_state) b = Z.testbit (rd m key_state) b /\
     Z.testbit (rd m' key_press) b = Z.testbit (rd m key_press) b) /\
  (forall pins pin, Forall differs pins -> (length pins < 4)%nat ->
     Z.testbit pin b = negb (Z.testbit (rd m key_state) b) ->
     let m' := ISR_TIMER0_OVF pin (samples pins m) in
     at_rest m' b /\
     Z.testbit (rd m' key_state) b = Z.testbit (rd m key_state) b /\
     Z.testbit (rd m' key_press) b = Z.testbit (rd m key_press) b) /\
  (forall pins, Forall differs pins -> length pins = 4%nat ->
     let m' := samples pins m in
     at_rest m' b /\
     Z.testbit (rd m' key_state) b = negb (Z.testbit (rd m key_state) b) /\
     Z.testbit (rd m' key_press) b =
       Z.testbit (rd m key_press) b || negb (Z.testbit (rd m key_state) b)) /\
  (forall pins more, Z.testbit (rd m key_state) b = false ->
     Forall differs pins -> length pins = 4%nat -> Forall differs more ->
     let m' := samples more (snd (get_key_press (bv b) (samples pins m))) in
     Z.testbit (rd m' key_state) b = true /\
     Z.testbit (rd m' key_press) b = false).
Proof.
  intros Hb Hr differs.
  pose proof (key_bit_at_rest m b Hr) as K.
  set (st := Z.testbit (rd m key_state) b) in *.
  set (kp := Z.testbit (rd m key_press) b) in *.
  pose proof (count_to_four st kp) as C. cbv zeta in C.
  destruct C as (C1 & C2 & C3 & C4).
  assert (Run : forall pins, Forall differs pins ->
            key_bit (samples pins m) b =
            Nat.iter (length pins) (debounce_bit st) (mkKeyBit st true true kp)).
  { intros pins F. rewrite samples_bit, K by exact Hb.
    now apply fold_same_level. }
  assert (Few : forall pins, Forall differs pins -> (length pins < 4)%nat ->
            kb_state (key_bit (samples pins m) b) = st /\
            kb_press (key_bit (samples pins m) b) = kp).
  { intros pins F L. rewrite (Run pins F).
    destruct (length pins) as [|[|[|[|n]]]]; try lia;
      [ | rewrite C1 | rewrite C2 | rewrite C3 ]; split; reflexivity. }
  split; [|split; [|split]].
  - intros pins F L. exact (Few pins F L).
  - intros pins pin F L Hp m'. subst m'.
    pose proof (ISR_TIMER0_OVF_bit pin (samples pins m) b Hb) as E.
    destruct (Few pins F L) as (Fs & Fp).
    rewrite Hp, <- Fs, agree_resets, Fs, Fp in E.
    unfold at_rest.
    change (Z.testbit (rd (ISR_TIMER0_OVF pin (samples pins m)) ct0) b)
      with (kb_ct0 (key_bit (ISR_TIMER0_OVF pin (samples pins m)) b)).
    change (Z.testbit (rd (ISR_TIMER0_OVF pin (samples pins m)) ct1) b)
      with (kb_ct1 (key_bit (ISR_TIMER0_OVF pin (samples pins m)) b)).
    change (Z.testbit (rd (ISR_TIMER0_OVF pin (samples pins m)) key_state) b)
      with (kb_state (key_bit (ISR_TIMER0_OVF pin (samples pins m)) b)).
    change (Z.testbit (rd (ISR_TIMER0_OVF pin (samples pins m)) key_press) b)
      with (kb_press (key_bit (ISR_TIMER0_OVF pin (samples pins m)) b)).
    rewrite E. repeat split.
  - intros pins F L m'. subst m'.
    pose proof (Run pins F) as E. rewrite L, C4 in E.
    unfold at_rest.
    change (Z.testbit (rd (samples pins m) ct0) b)
      with (kb_ct0 (key_bit (samples pins m) b)).
    change (Z.testbit (rd (samples pins m) ct1) b)
      with (kb_ct1 (key_bit (samples pins m) b)).
    change (Z.testbit (rd (samples pins m) key_state) b)
      with (kb_state (key_bit (samples pins m) b)).
    change (Z.testbit (rd (samples pins m) key_press) b)
      with (kb_press (key_bit (samples pins m) b)).
    rewrite E. repeat split.
  - intros pins more Hst F L Fm m'. subst m'.
    pose proof (Run pins F) as E. rewrite L, C4, Hst in E.
    set (m4 := samples pins m) in *.
    pose proof (key_bit_get_key_press m4 b Hb) as G. rewrite E in G.
    cbn [kb_state kb_ct0 kb_ct1 negb] in G.
    set (m5 := snd (get_key_press (bv b) m4)) in *.
    assert (Fm' : Forall (fun pin => Z.testbit pin b = false) more).
    { subst differs. cbv beta in Fm. now rewrite Hst in Fm. }
    pose proof (samples_bit more m5 b Hb) as M.
    rewrite (fold_same_level b false more _ Fm'), G, held_is_stable in M.
    change (Z.testbit (rd (samples more m5) key_state) b)
      with (kb_state (key_bit (samples more m5) b)).
    change (Z.testbit (rd (samples more m5) key_press) b)
      with (kb_press (key_bit (samples more m5) b)).
    rewrite M. split; reflexivity.
Qed.

(** The button line settled high, then sampled low. *)
Lemma debounce_four_samples_witness :
  let m := samples [255] booted in
  Z.testbit (rd (samples [254; 254; 254] m) key_press) KEY0 = false /\
  Z.testbit (rd (samples [254; 254; 254; 254] m) key_press) KEY0 = true.
Proof.
  intros m.
  assert (Hb : 0 <= KEY0 < 8) by (unfold KEY0; lia).
  assert (Hr : at_rest m KEY0) by (split; reflexivity).
  destruct (debounce_four_samples m KEY0 Hb Hr) as (P1 & _ & P3 & _).
  split.
  - apply (P1 [254; 254; 254]).
    + repeat constructor.
    + simpl. lia.
  - apply (P3 [254; 254; 254; 254]).
    + repeat constructor.
    + reflexivity.
Defined.

(** C4 as stated fails on both sides.  With the line settled high, a press
    that lasts two samples, or three, flags nothing, also after the line
    has settled high again; and on the very first sample after reset, when
    the static counters are still zero, a low line flags a press at once. *)
Lemma two_samples_flag_no_press :
  let m := samples [255] booted in
  (rd m key_state = 0 /\ rd m ct0 = 255 /\ rd m ct1 = 255) /\
  rd (samples [254; 254] m) key_press = 0 /\
  rd (samples [254; 254; 254] m) key_press = 0 /\
  rd (samples [254; 254; 254; 255; 255; 255; 255] m) key_press = 0 /\
  rd (samples [254] booted) key_press = 1.
Proof. vm_compute. repeat split. Qed.

(** * Every state the program reaches *)

Lemma cs12_after_set (x : Z) :
  Z.testbit (u8 (Z.lor x (Z.lor (bv CS11) (bv CS10)))) CS12 = Z.testbit x CS12.
Proof.
  unfold CS12. rewrite testbit_u8, Z.lor_spec by lia.
  simpl. now rewrite orb_false_r, andb_true_r.
Qed.

Lemma cs12_after_clear (x : Z) :
  Z.testbit (u8 (Z.land x (Z.lnot (Z.lor (bv CS11) (bv CS10))))) CS12 =
  Z.testbit x CS12.
Proof.
  unfold CS12. rewrite testbit_u8, Z.land_spec by lia.
  simpl. now rewrite !andb_true_r.
Qed.

Lemma on_timer_tick_toggles (m : Machine) :
  rd m state = xor \/ rd m state = flash -> on_timer_tick m = toggle_led m.
Proof. intros [H | H]; unfold on_timer_tick; now rewrite H. Qed.

Ltac split_inv := unfold machine_inv; split; [|split; [|split; [|split]]].

Lemma machine_inv_booted : machine_inv booted.
Proof.
  split_inv; try reflexivity; [left; reflexivity | by_compute | discriminate].
Qed.

(** The timer part of a turn keeps the invariant and never leaves the
    machine in Suspended: a pending wake-up tick is handled there. *)
Lemma main_timer_inv (m : Machine) :
  machine_inv m ->
  machine_inv (main_timer m) /\ rd (main_timer m) state <> sleep.
Proof.
  intros (Hm & Hsw & Hc & Hk & Hz).
  destruct (Z.eq_dec (rd m timer) 0) as [T | T].
  { rewrite main_timer_idle by exact T. split.
    - split_inv; assumption.
    - intros E. now apply (Hz E). }
  rewrite main_timer_fired by exact T.
  set (m' := assign8 timer (fun _ => 0) (on_timer_tick m)).
  assert (R : forall l, l <> timer -> rd m' l = rd (on_timer_tick m) l)
    by (intros l Hl; subst m'; now rewrite rd_assign8_neq by congruence).
  unfold machine_inv, sweep_inv. rewrite !R by discriminate.
  destruct Hm as [H | [H | [H | H]]].
  - destruct (on_timer_tick_sweep m H) as (Hrd & _). cbv zeta in Hrd.
    rewrite !Hrd, H.
    destruct (sweep_step_ok _ _ Hsw) as (K & _).
    split; [split_inv|]; trivial; try discriminate. left; reflexivity.
  - rewrite on_timer_tick_toggles by (left; exact H).
    rewrite !rd_toggle_led, H.
    split; [split_inv|]; trivial; try discriminate. right; left; reflexivity.
  - rewrite on_timer_tick_toggles by (right; exact H).
    rewrite !rd_toggle_led, H.
    split; [split_inv|]; trivial; try discriminate.
    right; right; left; reflexivity.
  - rewrite on_timer_tick_sleep by exact H.
    rewrite !rd_initState_sweep, !rd_assign8_eq, ?rd_assign8_neq by discriminate.
    rewrite cs12_after_set.
    split; [split_inv|]; trivial; try discriminate. left; reflexivity.
Qed.

(** The key part of a turn, entered in a mode other than Suspended. *)
Lemma main_key_inv (m : Machine) :
  machine_inv m -> rd m state <> sleep -> machine_inv (main_key m).
Proof.
  intros (Hm & Hsw & Hc & Hk & Hz) Hn.
  set (m0 := snd (get_key_press (bv KEY0) m)).
  assert (H0 : forall l, l <> SREG -> l <> key_press -> rd m0 l = rd m l)
    by (intros; now apply rd_get_key_press).
  assert (K0 : byte (rd m0 key_press))
    by (subst m0; rewrite get_key_press_pending; apply u8_byte).
  destruct (Z.testbit (rd m key_press) KEY0) eqn:P.
  - rewrite main_key_pressed by exact P. fold m0.
    destruct (on_button_press_entry m0) as (m1 & E & _ & Hrd).
    cbv zeta in E, Hrd. rewrite H0 in E, Hrd by discriminate.
    rewrite (advance_is_next_mode _ Hm) in E, Hrd. rewrite E.
    unfold machine_inv, sweep_inv.
    destruct Hm as [H | [H | [H | H]]]; [ | | | contradiction]; rewrite H in *.
    + change (next_mode sweep) with xor in *.
      rewrite !rd_initState_xor, !Hrd, !H0 by discriminate.
      rewrite cs12_after_set, cs12_after_clear.
      split_inv; trivial; try discriminate; unfold is_mode; auto.
    + change (next_mode xor) with flash in *.
      rewrite !rd_initState_flash, !Hrd, !H0 by discriminate.
      rewrite cs12_after_set, cs12_after_clear.
      split_inv; trivial; try discriminate; unfold is_mode; auto.
    + change (next_mode flash) with sleep in *.
      rewrite !rd_initState_sleep, !Hrd, !H0 by discriminate.
      rewrite cs12_after_clear.
      split_inv; trivial; try discriminate; unfold is_mode; auto.
  - rewrite main_key_idle by exact P. fold m0.
    unfold machine_inv, sweep_inv. rewrite !H0 by discriminate.
    split_inv; trivial.
Qed.

Lemma step_inv (m : Machine) (i : Input) : machine_inv m -> machine_inv (step m i).
Proof.
  intros Hi. destruct i as [pin | | ]; cbn [step].
  - destruct Hi as (Hm & Hsw & Hc & Hk & Hz).
    unfold machine_inv, sweep_inv. rewrite !rd_ISR_TIMER0_OVF. cbv zeta.
    split_inv; trivial. apply u8_byte.
  - destruct Hi as (Hm & Hsw & Hc & Hk & Hz).
    unfold machine_inv, sweep_inv, ISR_TIMER1_COMPA.
    rewrite rd_assign8_eq, !rd_assign8_neq by discriminate.
    split_inv; trivial. discriminate.
  - unfold loop_body, seqc.
    destruct (main_timer_inv m Hi) as (H1 & H2). now apply main_key_inv.
Qed.

(** Whatever the inputs, the machine that started from reset satisfies the
    invariant. *)
Lemma run_inv (ins : list Input) : machine_inv (run booted ins).
Proof.
  unfold run.
  assert (G : forall m, machine_inv m -> machine_inv (fold_left step ins m)).
  { induction ins as [|i ins IH]; intros m Hm; [exact Hm|].
    cbn [fold_left]. apply IH. now apply step_inv. }
  apply G, machine_inv_booted.
Qed.

(** The press handler is never entered in Suspended: when the loop comes to
    poll the key, the wake-up tick has already put the mode back to Sweep. *)
Lemma key_never_polled_in_sleep (ins : list Input) :
  rd (main_timer (run booted ins)) state <> sleep.
Proof. apply main_timer_inv, run_inv. Qed.

Lemma rd_main_timer_key_press (m : Machine) :
  machine_inv m -> rd (main_timer m) key_press = rd m key_press.
Proof.
  intros (Hm & _).
  destruct (Z.eq_dec (rd m timer) 0) as [T | T].
  { now rewrite main_timer_idle. }
  rewrite main_timer_fired, rd_assign8_neq by (exact T || discriminate).
  destruct Hm as [H | [H | [H | H]]].
  - destruct (on_timer_tick_sweep m H) as (Hrd & _). now rewrite Hrd.
  - rewrite on_timer_tick_toggles by (left; exact H). now rewrite rd_toggle_led.
  - rewrite on_timer_tick_toggles by (right; exact H). now rewrite rd_toggle_led.
  - rewrite on_timer_tick_sleep by exact H.
    now rewrite rd_initState_sweep, rd_assign8_neq by discriminate.
Qed.

(** In a run of the program, a turn of the loop that finds a press pending
    moves the mode it polls the key in to its successor. *)
Lemma turn_with_press_advances (ins : list Input) :
  let m := run booted ins in
  Z.testbit (rd m key_press) KEY0 = true ->
  rd (loop_body m) state = next_mode (rd (main_timer m) state).
Proof.
  intros m P. unfold loop_body, seqc.
  pose proof (run_inv ins) as Hi. fold m in Hi.
  destruct (main_timer_inv m Hi) as ((Hm & _) & _).
  rewrite main_key_pressed by (now rewrite rd_main_timer_key_press).
  rewrite on_button_press_state; now rewrite rd_get_key_press by discriminate.
Qed.

(** * The mode cycle *)



(** * Alternate and Flash *)

(** A tick in Alternate or Flash inverts the LED port and consumes the
    flag. *)
Lemma tick_toggle (m : Machine) :
  rd m state = xor \/ rd m state = flash ->
  (forall l, rd (tick m) l =
     match l with
     | PORTD => u8 (Z.lxor (rd m PORTD) 255)
     | timer => 0
     | _ => rd m l
     end) /\
  trace (tick m) = trace m ++ [LedWrite (u8 (Z.lxor (rd m PORTD) 255))].
Proof.
  intros Hs. rewrite tick_eq.
  set (m0 := assign8 timer (fun _ => 1) m).
  assert (H0 : forall l, l <> timer -> rd m0 l = rd m l)
    by (intros l Hl; subst m0; now rewrite rd_assign8_neq by congruence).
  rewrite on_timer_tick_toggles by (now rewrite H0 by discriminate).
  split.
  - intros l. destruct (Loc_eq_dec timer l) as [<- | N].
    + now rewrite rd_assign8_eq.
    + rewrite rd_assign8_neq, rd_toggle_led by exact N.
      destruct l; try congruence; rewrite ?H0 by discriminate; reflexivity.
  - change (trace (assign8 timer (fun _ => 0) (toggle_led m0)))
      with (trace m0 ++ [LedWrite (rd (toggle_led m0) PORTD)]).
    rewrite rd_toggle_led, H0 by discriminate. reflexivity.
Qed.

(** X1: After Alternate or Flash has been entered, the LED port shows the entry
    pattern after an even number of ticks and its complement after an odd
    number; the mode and the armed period stay. *)
Theorem toggle_modes_alternate (m : Machine) (n : nat) :
  rd m state = xor \/ rd m state = flash ->
  let p := entry_pattern (rd m state) in
  let mn := Nat.iter n tick (initState (rd m state) m) in
  rd mn state = rd m state /\
  rd mn ledPort = (if Nat.even n then p else 255 - p) /\
  rd mn OCR1A = mode_delay (rd m state).
Proof.
  intros Hs p mn. subst p mn. unfold ledPort.
  induction n as [|n (IHs & IHl & IHo)].
  - change (Nat.iter 0 tick (initState (rd m state) m))
      with (initState (rd m state) m).
    rewrite rd_initState_state. split; [reflexivity|].
    destruct Hs as [H | H]; rewrite H.
    + now rewrite !rd_initState_xor by discriminate.
    + now rewrite !rd_initState_flash by discriminate.
  - change (Nat.iter (S n) tick (initState (rd m state) m))
      with (tick (Nat.iter n tick (initState (rd m state) m))).
    set (mn := Nat.iter n tick (initState (rd m state) m)) in *.
    assert (Hn : rd mn state = xor \/ rd mn state = flash) by (now rewrite IHs).
    destruct (tick_toggle mn Hn) as (Hrd & _).
    rewrite !Hrd, IHs, IHl, IHo. split; [reflexivity|]. split; [|reflexivity].
    rewrite Nat.even_succ, <- Nat.negb_even.
    destruct Hs as [H | H]; rewrite H; destruct (Nat.even n); reflexivity.
Qed.

Lemma toggle_modes_alternate_witness :
  rd (Nat.iter 3 tick (initState xor (wr state xor booted))) ledPort = 240 /\
  rd (Nat.iter 4 tick (initState xor (wr state xor booted))) ledPort = 15.
Proof.
  assert (Hs : rd (wr state xor booted) state = xor \/
               rd (wr state xor booted) state = flash) by (left; reflexivity).
  split.
  - apply (toggle_modes_alternate (wr state xor booted) 3 Hs).
  - apply (toggle_modes_alternate (wr state xor booted) 4 Hs).
Defined.

(** * The sweep as a cycle *)

Lemma iter_tick_sweep (m : Machine) (n : nat) :
  rd m state = sweep ->
  let td := Nat.iter n sweep_step (rd m tracker, rd m direction) in
  rd (Nat.iter n tick m) state = sweep /\
  rd (Nat.iter n tick m) tracker = fst td /\
  rd (Nat.iter n tick m) direction = snd td /\
  ((0 < n)%nat -> rd (Nat.iter n tick m) ledPort = fst td).
Proof.
  intros Hs. induction n as [|n (IHs & IHt & IHd & _)]; cbv zeta.
  - repeat split; trivial. intros H. inversion H.
  - change (Nat.iter (S n) tick m) with (tick (Nat.iter n tick m)).
    change (Nat.iter (S n) sweep_step (rd m tracker, rd m direction))
      with (sweep_step (Nat.iter n sweep_step (rd m tracker, rd m direction))).
    cbv zeta in IHt, IHd.
    destruct (tick_sweep_at _ _ _ IHs IHt IHd) as (H1 & H2 & H3 & H4 & _).
    cbv zeta in H2, H3, H4. rewrite <- surjective_pairing in H2, H3, H4.
    repeat split; auto.
Qed.

(** On the fourteen values of the sweep variables that satisfy the
    invariant, [sweep_step] is one cycle of length fourteen that passes
    through every pattern. *)
Lemma sweep_step_cycle (t d : Z) :
  sweep_ok t d = true ->
  Nat.iter 14 sweep_step (t, d) = (t, d) /\
  forallb (fun k => negb (same_sweep (Nat.iter k sweep_step (t, d)) (t, d)))
    (List.seq 1 13) = true /\
  forallb (fun p =>
     existsb (fun k => fst (Nat.iter k sweep_step (t, d)) =? p) (List.seq 1 14))
    one_hot = true.
Proof.
  intros H. apply sweep_ok_cases in H. destruct H as (Ht & Hd & Ha & Hz).
  unfold one_hot in Ht. simpl in Ht.
  repeat (destruct Ht as [Ht | Ht]; [subst t|]); try contradiction;
    (destruct Hd as [-> | ->];
     [ try (specialize (Ha eq_refl); discriminate)
     | try (specialize (Hz eq_refl); discriminate) ]);
    vm_compute; repeat split.
Qed.

(** X2: In Sweep mode the display is periodic: fourteen ticks bring [tracker]
    and [direction] back to their values, no smaller number of ticks does,
    and within those fourteen ticks every one of the eight LEDs is lit. *)
Theorem sweep_period (m : Machine) :
  rd m state = sweep -> sweep_inv m ->
  (rd (Nat.iter 14 tick m) tracker = rd m tracker /\
   rd (Nat.iter 14 tick m) direction = rd m direction) /\
  (forall k, (0 < k < 14)%nat ->
     same_sweep (rd (Nat.iter k tick m) tracker, rd (Nat.iter k tick m) direction)
                (rd m tracker, rd m direction) = false) /\
  (forall p, In p one_hot ->
     exists k, (0 < k <= 14)%nat /\ rd (Nat.iter k tick m) ledPort = p).
Proof.
  intros Hs Hi. destruct (sweep_step_cycle _ _ Hi) as (C1 & C2 & C3).
  split; [|split].
  - destruct (iter_tick_sweep m 14 Hs) as (_ & Ht & Hd & _). cbv zeta in Ht, Hd.
    rewrite Ht, Hd, C1. split; reflexivity.
  - intros k Hk.
    destruct (iter_tick_sweep m k Hs) as (_ & Ht & Hd & _). cbv zeta in Ht, Hd.
    rewrite Ht, Hd, <- surjective_pairing.
    rewrite forallb_forall in C2. apply negb_true_iff, C2, in_seq. lia.
  - intros p Hp. rewrite forallb_forall in C3. specialize (C3 p Hp).
    apply existsb_exists in C3. destruct C3 as (k & Hk & E).
    apply in_seq in Hk. apply Z.eqb_eq in E.
    exists k. split; [lia|].
    destruct (iter_tick_sweep m k Hs) as (_ & _ & _ & Hl). cbv zeta in Hl.
    rewrite Hl by lia. exact E.
Qed.

Lemma sweep_period_witness :
  rd (Nat.iter 14 tick booted) tracker = rd booted tracker /\
  same_sweep (rd (Nat.iter 7 tick booted) tracker,
              rd (Nat.iter 7 tick booted) direction)
             (rd booted tracker, rd booted direction) = false.
Proof.
  assert (Hs : rd booted state = sweep) by reflexivity.
  assert (Hi : sweep_inv booted) by reflexivity.
  destruct (sweep_period booted Hs Hi) as ((H1 & _) & H2 & _).
  split; [exact H1 | apply H2; lia].
Defined.

(** * More on the debounce routine *)

Lemma debounce_bit_flags (pin : bool) (s : KeyBit) :
  let s' := debounce_bit pin s in
  (kb_press s = true -> kb_press s' = true) /\
  (kb_press s = false -> kb_press s' = true ->
   kb_state s = false /\ kb_state s' = true /\ pin = false) /\
  (kb_state s' = negb (kb_state s) ->
   pin = kb_state s /\ kb_ct0 s' = true /\ kb_ct1 s' = true).
Proof.
  destruct s as [[] [] [] []], pin; cbn; repeat split; intros; congruence.
Qed.

(** X3: One sample never withdraws a pending press; it raises one only where
    the debounced level goes from released to pressed on a low input; and
    the debounced level changes only on a sample that differs from it,
    leaving the counter of that bit at rest. *)
Theorem sampler_flags_only_presses (pin : Z) (m : Machine) (b : Z) :
  0 <= b < 8 ->
  let m' := ISR_TIMER0_OVF pin m in
  (Z.testbit (rd m key_press) b = true -> Z.testbit (rd m' key_press) b = true) /\
  (Z.testbit (rd m key_press) b = false -> Z.testbit (rd m' key_press) b = true ->
   Z.testbit (rd m key_state) b = false /\ Z.testbit (rd m' key_state) b = true /\
   Z.testbit pin b = false) /\
  (Z.testbit (rd m' key_state) b = negb (Z.testbit (rd m key_state) b) ->
   Z.testbit pin b = Z.testbit (rd m key_state) b /\ at_rest m' b).
Proof.
  intros Hb m'. subst m'.
  pose proof (ISR_TIMER0_OVF_bit pin m b Hb) as E.
  pose proof (debounce_bit_flags (Z.testbit pin b) (key_bit m b)) as F.
  cbv zeta in F. rewrite <- E in F. exact F.
Qed.

Lemma sampler_flags_only_presses_witness :
  let m := samples [254; 254; 254; 254] (samples [255] booted) in
  Z.testbit (rd (ISR_TIMER0_OVF 255 m) key_press) KEY0 = true.
Proof.
  intros m.
  assert (Hb : 0 <= KEY0 < 8) by (unfold KEY0; lia).
  destruct (sampler_flags_only_presses 255 m KEY0 Hb) as (H & _).
  apply H. reflexivity.
Defined.

(** X4: With both counter bits of an input clear, which is how the statics
    [ct0] and [ct1] start after reset, a single sample that differs from
    the debounced level toggles it at once. *)
Theorem zero_counter_toggles_at_once (pin : Z) (m : Machine) (b : Z) :
  0 <= b < 8 ->
  Z.testbit (rd m ct0) b = false -> Z.testbit (rd m ct1) b = false ->
  Z.testbit pin b = Z.testbit (rd m key_state) b ->
  let m' := ISR_TIMER0_OVF pin m in
  Z.testbit (rd m' key_state) b = negb (Z.testbit (rd m key_state) b) /\
  Z.testbit (rd m' key_press) b =
    Z.testbit (rd m key_press) b || negb (Z.testbit (rd m key_state) b) /\
  at_rest m' b /\
  (rd booted ct0 = 0 /\ rd booted ct1 = 0).
Proof.
  intros Hb H0 H1 Hp m'. subst m'.
  pose proof (ISR_TIMER0_OVF_bit pin m b Hb) as E.
  unfold key_bit in E at 2. rewrite H0, H1, Hp in E.
  unfold at_rest.
  change (Z.testbit (rd (ISR_TIMER0_OVF pin m) ct0) b)
    with (kb_ct0 (key_bit (ISR_TIMER0_OVF pin m) b)).
  change (Z.testbit (rd (ISR_TIMER0_OVF pin m) ct1) b)
    with (kb_ct1 (key_bit (ISR_TIMER0_OVF pin m) b)).
  change (Z.testbit (rd (ISR_TIMER0_OVF pin m) key_state) b)
    with (kb_state (key_bit (ISR_TIMER0_OVF pin m) b)).
  change (Z.testbit (rd (ISR_TIMER0_OVF pin m) key_press) b)
    with (kb_press (key_bit (ISR_TIMER0_OVF pin m) b)).
  rewrite E.
  destruct (Z.testbit (rd m key_state) b), (Z.testbit (rd m key_press) b);
    repeat split.
Qed.

(** The button held down while the chip comes out of reset. *)
Lemma zero_counter_toggles_at_once_witness :
  Z.testbit (rd (ISR_TIMER0_OVF 254 booted) key_press) KEY0 = true.
Proof.
  assert (Hb : 0 <= KEY0 < 8) by (unfold KEY0; lia).
  assert (H0 : Z.testbit (rd booted ct0) KEY0 = false) by reflexivity.
  assert (H1 : Z.testbit (rd booted ct1) KEY0 = false) by reflexivity.
  assert (Hp : Z.testbit 254 KEY0 = Z.testbit (rd booted key_state) KEY0)
    by reflexivity.
  destruct (zero_counter_toggles_at_once 254 booted KEY0 Hb H0 H1 Hp)
    as (_ & H & _).
  rewrite H. reflexivity.
Defined.

(** * Going to sleep *)

Lemma rd_sleep_now_regs (m : Machine) :
  let m' := sleep_now m in
  rd m' PCICR = u8 (Z.land (u8 (Z.lor (rd m PCICR) (bv PCIE1))) (Z.lnot (bv PCIE1))) /\
  rd m' PCMSK1 = u8 (Z.land (u8 (Z.lor (rd m PCMSK1) (bv PCINT8))) (Z.lnot (bv PCINT8))) /\
  rd m' SMCR =
    u8 (Z.land (u8 (Z.land (u8 (Z.lor (u8 (Z.lor
      (Z.land (rd m SMCR) (Z.lnot (Z.lor (bv SM0) (Z.lor (bv SM1) (bv SM2)))))
      SLEEP_MODE_PWR_DOWN)) (bv SE))) (Z.lnot (bv SE)))) (Z.lnot (bv SE))) /\
  rd m' SREG = u8 (Z.lor (u8 (Z.land (rd m SREG) (Z.lnot (bv SREG_I)))) (bv SREG_I)).
Proof. cbv zeta. repeat split; exec; reflexivity. Qed.

Ltac bit_cases i :=
  let C := fresh "C" in
  assert (C : i = 0 \/ i = 1 \/ i = 2 \/ i = 3 \/ i = 4 \/ i = 5 \/ i = 6 \/ i = 7)
    by lia;
  repeat (destruct C as [C | C]; [subst i|]); [.. | subst i].

(** X5: [sleep_now] returns with the wake-up watch disarmed again (PCIE1 and
    PCINT8 clear), sleep disabled (SE clear) with the power-down mode
    selected, and interrupts enabled; it alters no other bit of these
    registers, and it delays and halts exactly once. *)
Theorem sleep_now_disarms_wake (m : Machine) (i : Z) :
  0 <= i < 8 ->
  let m' := sleep_now m in
  Z.testbit (rd m' PCICR) i =
    (if i =? PCIE1 then false else Z.testbit (rd m PCICR) i) /\
  Z.testbit (rd m' PCMSK1) i =
    (if i =? PCINT8 then false else Z.testbit (rd m PCMSK1) i) /\
  Z.testbit (rd m' SMCR) i =
    (if i =? SE then false
     else if i =? SM1 then true
     else if (i =? SM0) || (i =? SM2) then false
     else Z.testbit (rd m SMCR) i) /\
  Z.testbit (rd m' SREG) SREG_I = true /\
  trace m' = trace m ++ [Delay 500; Halt].
Proof.
  intros Hi m'. subst m'.
  destruct (rd_sleep_now_regs m) as (E1 & E2 & E3 & E4). cbv zeta in *.
  rewrite E1, E2, E3, E4, trace_sleep_now.
  unfold SREG_I, SLEEP_MODE_PWR_DOWN, PCIE1, PCINT8, SE, SM0, SM1, SM2.
  bit_cases i; testbits; cbn;
    rewrite ?andb_true_r, ?andb_false_r, ?orb_true_r, ?orb_false_r;
    repeat split; reflexivity.
Qed.

Lemma sleep_now_disarms_wake_witness :
  Z.testbit (rd (sleep_now booted) PCICR) PCIE1 = false.
Proof.
  assert (Hi : 0 <= PCIE1 < 8) by (unfold PCIE1; lia).
  destruct (sleep_now_disarms_wake booted PCIE1 Hi) as (H & _).
  rewrite H. reflexivity.
Defined.

(** * Stopping twice, and a state byte out of range *)

Lemma I_set_after (x : Z) : Z.testbit (u8 (Z.lor x (bv SREG_I))) SREG_I = true.
Proof.
  unfold SREG_I. rewrite testbit_u8, Z.lor_spec by lia.
  change (Z.testbit (bv 7) 7) with true. now rewrite orb_true_r.
Qed.

(** X6: [timer1_stop] is idempotent: a second call changes no location and
    writes nothing; and of TCCR1B it clears the bits CS11 and CS10 only. *)
Theorem timer1_stop_idempotent (m : Machine) (l : Loc) (i : Z) :
  0 <= i < 8 ->
  rd (timer1_stop (timer1_stop m)) l = rd (timer1_stop m) l /\
  trace (timer1_stop (timer1_stop m)) = trace m /\
  Z.testbit (rd (timer1_stop m) TCCR1B) i =
    (if (i =? CS11) || (i =? CS10) then false else Z.testbit (rd m TCCR1B) i).
Proof.
  intros Hi. split; [|split; [reflexivity|]].
  - destruct (Loc_eq_dec l SREG) as [-> | N].
    + exec. apply Z.bits_inj'. intros j Hj. testbits.
      destruct (j <? 8); bool_cases.
    + rewrite !rd_timer1_stop by exact N.
      destruct l; rewrite ?rd_timer1_stop by discriminate; try reflexivity.
      apply Z.bits_inj'. intros j Hj. testbits.
      destruct (j <? 8); bool_cases.
  - rewrite rd_timer1_stop by discriminate. unfold CS11, CS10.
    bit_cases i; testbits; cbn; rewrite ?andb_true_r, ?andb_false_r; reflexivity.
Qed.

Lemma timer1_stop_idempotent_witness :
  rd (timer1_stop (timer1_stop booted)) TCCR1B = rd (timer1_stop booted) TCCR1B /\
  Z.testbit (rd (timer1_stop booted) TCCR1B) WGM12 = true.
Proof.
  assert (Hi : 0 <= WGM12 < 8) by (unfold WGM12; lia).
  destruct (timer1_stop_idempotent booted TCCR1B WGM12 Hi) as (H1 & _ & H3).
  split; [exact H1 | rewrite H3; reflexivity].
Defined.

(** X7: Whatever the state byte holds, a press leaves it on one of the four
    modes; a byte from 3 up to 255 goes to Sweep; and the tick handler
    leaves a byte above 3 and everything else alone. *)
Theorem press_lands_in_a_mode (m : Machine) :
  byte (rd m state) ->
  is_mode (rd (on_button_press m) state) /\
  (3 <= rd m state -> rd (on_button_press m) state = sweep) /\
  (3 < rd m state ->
   forall l, rd (on_timer_tick m) l = rd m l) /\
  (3 < rd m state -> trace (on_timer_tick m) = trace m).
Proof.
  intros Hb. destruct (on_button_press_entry m) as (m1 & E & _ & Hrd).
  cbv zeta in E, Hrd. rewrite E, rd_initState_state, Hrd by discriminate.
  unfold byte in Hb. unfold is_mode, sweep, xor, flash, sleep.
  assert (Hu : rd m state < 255 -> u8 (rd m state + 1) = rd m state + 1)
    by (intros; apply u8_small; unfold byte; lia).
  assert (Hw : rd m state = 255 -> u8 (rd m state + 1) = 0)
    by (intros ->; reflexivity).
  assert (T : 3 < rd m state -> on_timer_tick m = m).
  { intros H. unfold on_timer_tick, sweep, xor, flash, sleep.
    destruct (Z.eqb_spec (rd m state) 0); [lia|].
    destruct (Z.eqb_spec (rd m state) 1); [lia|].
    destruct (Z.eqb_spec (rd m state) 2); [lia|].
    destruct (Z.eqb_spec (rd m state) 3); [lia|]. reflexivity. }
  split; [|split; [|split]].
  - destruct (Z.eq_dec (rd m state) 255) as [F | F].
    + rewrite (Hw F). simpl. auto.
    + rewrite Hu by lia. destruct (Z.ltb_spec 3 (rd m state + 1)); [auto|lia].
  - intros H. destruct (Z.eq_dec (rd m state) 255) as [F | F].
    + rewrite (Hw F). reflexivity.
    + rewrite Hu by lia. destruct (Z.ltb_spec 3 (rd m state + 1)); [reflexivity|lia].
  - intros H l. now rewrite (T H).
  - intros H. now rewrite (T H).
Qed.

Lemma press_lands_in_a_mode_witness :
  rd (on_button_press (wr state 255 booted)) state = sweep.
Proof.
  assert (Hb : byte (rd (wr state 255 booted) state)) by by_compute.
  destruct (press_lands_in_a_mode (wr state 255 booted) Hb) as (_ & H & _).
  apply H. vm_compute. discriminate.
Defined.

(** * What holds of every state the program reaches *)

Lemma initState_I (s : Z) (m : Machine) :
  is_mode s -> Z.testbit (rd (initState s m) SREG) SREG_I = true.
Proof.
  intros [-> | [-> | [-> | ->]]].
  - change (initState sweep) with
      (assign8 tracker (fun _ => 1) ;; assign8 direction (fun _ => 1) ;;
       start_timer1_compare sweepDelay). exec. apply I_set_after.
  - change (initState xor) with
      (assign8 ledPort (fun _ => 15) ;; show ;; start_timer1_compare xorDelay).
    exec. apply I_set_after.
  - change (initState flash) with
      (assign8 ledPort (fun _ => 255) ;; show ;; start_timer1_compare flashDelay).
    exec. apply I_set_after.
  - change (initState sleep) with
      (assign8 ledPort (fun _ => 0) ;; show ;; sleep_now ;;
       assign8 timer (fun _ => 1)).
    exec. apply I_set_after.
Qed.

Lemma get_key_press_I (k : Z) (m : Machine) :
  Z.testbit (rd (snd (get_key_press k m)) SREG) SREG_I = true.
Proof. unfold get_key_press. cbn [snd]. exec. apply I_set_after. Qed.

Lemma rd_initState_sleep_regs (m : Machine) :
  rd (initState sleep m) PCICR = rd (sleep_now m) PCICR /\
  rd (initState sleep m) PCMSK1 = rd (sleep_now m) PCMSK1 /\
  rd (initState sleep m) SMCR = rd (sleep_now m) SMCR.
Proof.
  change (initState sleep) with
    (assign8 ledPort (fun _ => 0) ;; show ;; sleep_now ;;
     assign8 timer (fun _ => 1)).
  repeat split; exec; reflexivity.
Qed.

Lemma wgm12_after_set (x : Z) :
  Z.testbit (u8 (Z.lor x (Z.lor (bv CS11) (bv CS10)))) WGM12 = Z.testbit x WGM12.
Proof.
  unfold WGM12. rewrite testbit_u8, Z.lor_spec by lia.
  simpl. now rewrite orb_false_r, andb_true_r.
Qed.

Lemma wgm12_after_clear (x : Z) :
  Z.testbit (u8 (Z.land x (Z.lnot (Z.lor (bv CS11) (bv CS10))))) WGM12 =
  Z.testbit x WGM12.
Proof.
  unfold WGM12. rewrite testbit_u8, Z.land_spec by lia.
  simpl. now rewrite !andb_true_r.
Qed.

Lemma clock_running (x : Z) :
  Z.testbit x CS12 = false ->
  Z.land (u8 (Z.lor x (Z.lor (bv CS11) (bv CS10))))
         (Z.lor (bv CS12) (Z.lor (bv CS11) (bv CS10))) =
  Z.lor (bv CS11) (bv CS10).
Proof.
  intros H. apply Z.bits_inj'. intros i Hi.
  change (Z.lor (bv CS12) (Z.lor (bv CS11) (bv CS10))) with 7.
  change (Z.lor (bv CS11) (bv CS10)) with 3.
  testbits.
  assert (C : i = 0 \/ i = 1 \/ i = 2 \/ 3 <= i) by lia.
  destruct C as [-> | [-> | [-> | C]]].
  - simpl. now rewrite orb_true_r.
  - simpl. now rewrite orb_true_r.
  - unfold CS12 in H. rewrite H. reflexivity.
  - rewrite (testbit_high 7 3 i), (testbit_high 3 3 i) by lia.
    now rewrite !andb_false_r.
Qed.
Ltac unfold_obs :=
  unfold hw_config, timer_matches_mode, timer1_clock, led_matches_mode,
    ledPort, ledDDR, KEY_DDR, KEY_PORT in *.

Lemma main_timer_observed (m : Machine) :
  observed_inv m -> observed_inv (main_timer m).
Proof.
  intros (Hi & Hw & Ht & Hl).
  destruct (main_timer_inv m Hi) as (Hi' & _).
  split; [exact Hi'|]. clear Hi'.
  destruct (Z.eq_dec (rd m timer) 0) as [T | T].
  { rewrite main_timer_idle by exact T. auto. }
  rewrite main_timer_fired by exact T.
  destruct Hi as (Hm & Hsw & Hc & Hk & Hz).
  set (m' := assign8 timer (fun _ => 0) (on_timer_tick m)).
  assert (R : forall l, l <> timer -> rd m' l = rd (on_timer_tick m) l)
    by (intros l Hn; subst m'; now rewrite rd_assign8_neq by congruence).
  unfold_obs. cbv zeta in *.
  rewrite !R by discriminate.
  destruct Hm as [H | [H | [H | H]]].
  - destruct (on_timer_tick_sweep m H) as (Hrd & _). cbv zeta in Hrd.
    rewrite !Hrd. rewrite H in *. cbn [Z.eqb Pos.eqb sweep sleep xor flash] in *.
    repeat split; try tauto.
  - rewrite on_timer_tick_toggles by (left; exact H).
    rewrite !rd_toggle_led. rewrite H in *. cbn [Z.eqb Pos.eqb sweep sleep xor flash] in *.
    repeat split; try tauto.
    destruct Hl as [-> | ->]; [right | left]; reflexivity.
  - rewrite on_timer_tick_toggles by (right; exact H).
    rewrite !rd_toggle_led. rewrite H in *. cbn [Z.eqb Pos.eqb sweep sleep xor flash] in *.
    repeat split; try tauto.
    destruct Hl as [-> | ->]; [right | left]; reflexivity.
  - rewrite on_timer_tick_sleep by exact H.
    rewrite (initState_I sweep) by (left; reflexivity).
    rewrite !rd_initState_sweep, ?rd_assign8_eq, ?rd_assign8_neq by discriminate.
    rewrite H in *. cbn [Z.eqb Pos.eqb sweep sleep xor flash] in *.
    rewrite wgm12_after_set, clock_running by exact Hc.
    change (u8 sweep) with sweep. cbn [Z.eqb Pos.eqb sweep sleep xor flash].
    repeat split; try tauto.
Qed.

Lemma main_key_observed (m : Machine) :
  observed_inv m -> rd m state <> sleep -> observed_inv (main_key m).
Proof.
  intros (Hi & Hw & Ht & Hl) Hn.
  split; [now apply main_key_inv|].
  destruct Hi as (Hm & Hsw & Hc & Hk & Hz).
  set (m0 := snd (get_key_press (bv KEY0) m)).
  assert (H0 : forall l, l <> SREG -> l <> key_press -> rd m0 l = rd m l)
    by (intros; now apply rd_get_key_press).
  destruct (Z.testbit (rd m key_press) KEY0) eqn:P.
  - rewrite main_key_pressed by exact P. fold m0.
    destruct (on_button_press_entry m0) as (m1 & E & _ & Hrd).
    cbv zeta in E, Hrd. rewrite H0 in E, Hrd by discriminate.
    rewrite (advance_is_next_mode _ Hm) in E, Hrd. rewrite E.
    unfold_obs. cbv zeta in *.
    destruct Hm as [H | [H | [H | H]]]; [ | | | contradiction]; rewrite H in *.
    + change (next_mode sweep) with xor in *.
      rewrite (initState_I xor) by (right; left; reflexivity).
      rewrite !rd_initState_xor, !Hrd, ?H0 by discriminate.
      rewrite wgm12_after_set, wgm12_after_clear.
      rewrite clock_running by (now rewrite cs12_after_clear).
      cbn [Z.eqb Pos.eqb sweep sleep xor flash] in *.
      repeat split; try tauto.
    + change (next_mode xor) with flash in *.
      rewrite (initState_I flash) by (right; right; left; reflexivity).
      rewrite !rd_initState_flash, !Hrd, ?H0 by discriminate.
      rewrite wgm12_after_set, wgm12_after_clear.
      rewrite clock_running by (now rewrite cs12_after_clear).
      cbn [Z.eqb Pos.eqb sweep sleep xor flash] in *.
      repeat split; try tauto.
    + change (next_mode flash) with sleep in *.
      rewrite (initState_I sleep) by (right; right; right; reflexivity).
      destruct (rd_initState_sleep_regs m1) as (E1 & E2 & E3).
      destruct (rd_sleep_now_regs m1) as (F1 & F2 & F3 & _). cbv zeta in F1, F2, F3.
      rewrite E1, E2, E3, F1, F2, F3.
      rewrite !rd_initState_sleep, !Hrd, ?H0 by discriminate.
      rewrite wgm12_after_clear, clock_stopped by exact Hc.
      cbn [Z.eqb Pos.eqb sweep sleep xor flash] in *.
      destruct Hw as (W1 & W2 & W3 & W4 & W5 & W6 & W7 & W8 & W9 & W10 & W11).
      rewrite W8, W9.
      repeat split; try tauto.
      destruct W10 as [-> | ->]; right; reflexivity.
  - rewrite main_key_idle by exact P. fold m0.
    unfold_obs. cbv zeta in *.
    rewrite !H0 by discriminate. subst m0. rewrite get_key_press_I.
    repeat split; tauto.
Qed.

Lemma observed_booted : observed_inv booted.
Proof.
  split; [apply machine_inv_booted|].
  unfold_obs. cbv zeta. vm_compute. repeat split; auto.
Qed.

Lemma step_observed (m : Machine) (i : Input) :
  observed_inv m -> observed_inv (step m i).
Proof.
  intros Ho. destruct i as [pin | | ]; cbn [step].
  - destruct Ho as (Hi & Hw & Ht & Hl).
    split; [exact (step_inv m (Sample pin) Hi)|].
    unfold_obs. cbv zeta in *. rewrite !rd_ISR_TIMER0_OVF. cbv zeta. auto.
  - destruct Ho as (Hi & Hw & Ht & Hl).
    split; [exact (step_inv m Compare Hi)|].
    unfold_obs. cbv zeta in *. unfold ISR_TIMER1_COMPA.
    rewrite !rd_assign8_neq by discriminate. auto.
  - unfold loop_body, seqc.
    pose proof (main_timer_observed m Ho) as Ho'.
    destruct Ho as (Hi & _). destruct (main_timer_inv m Hi) as (_ & Hn).
    now apply main_key_observed.
Qed.

Lemma run_observed_from (m : Machine) (ins : list Input) :
  observed_inv m -> observed_inv (run m ins).
Proof.
  unfold run. revert m. induction ins as [|i ins IH]; intros m Hm; [exact Hm|].
  cbn [fold_left]. apply IH. now apply step_observed.
Qed.

(** X8: In every state the program reaches, Timer1 is stopped if the mode is
    Suspended, and otherwise runs from the clock divided by 64 with the
    period of the current mode in OCR1A. *)
Theorem timer_follows_mode (ins : list Input) :
  timer_matches_mode (run booted ins).
Proof. apply (run_observed_from booted ins observed_booted). Qed.


(** X10: In every state the program reaches the LED port shows a pattern of the
    current mode: 0x0F or 0xF0 in Alternate, 0xFF or 0x00 in Flash, 0x00 in
    Suspended, and in Sweep the single-bit pattern of [tracker], or still
    0xFF or 0x00 before the first tick after the entry. *)
Theorem leds_follow_mode (ins : list Input) :
  led_matches_mode (run booted ins) /\
  (rd (run booted ins) state = sweep ->
   In (rd (run booted ins) ledPort) (255 :: 0 :: one_hot)).
Proof.
  pose proof (run_observed_from booted ins observed_booted) as (Hi & _ & _ & Hl).
  split; [exact Hl|]. intros Hs.
  destruct Hi as (_ & Hsw & _). apply sweep_ok_cases in Hsw.
  destruct Hsw as (Ht & _).
  unfold led_matches_mode in Hl. cbv zeta in Hl. rewrite Hs in Hl.
  cbn [Z.eqb sweep] in Hl.
  destruct Hl as [-> | (_ & _ & [-> | ->])].
  - right; right; exact Ht.
  - left; reflexivity.
  - right; left; reflexivity.
Qed.


(** * Holding the button *)

Lemma main_timer_keeps_key (m : Machine) (l : Loc) :
  machine_inv m ->
  l = key_state \/ l = ct0 \/ l = ct1 \/ l = key_press ->
  rd (main_timer m) l = rd m l.
Proof.
  intros (Hm & _) Hl.
  destruct (Z.eq_dec (rd m timer) 0) as [T | T].
  { now rewrite main_timer_idle. }
  rewrite main_timer_fired by exact T.
  destruct Hm as [H | [H | [H | H]]].
  - destruct (on_timer_tick_sweep m H) as (Hrd & _).
    destruct Hl as [-> | [-> | [-> | ->]]];
      now rewrite rd_assign8_neq, Hrd by discriminate.
  - rewrite on_timer_tick_toggles by (left; exact H).
    destruct Hl as [-> | [-> | [-> | ->]]];
      now rewrite rd_assign8_neq, rd_toggle_led by discriminate.
  - rewrite on_timer_tick_toggles by (right; exact H).
    destruct Hl as [-> | [-> | [-> | ->]]];
      now rewrite rd_assign8_neq, rd_toggle_led by discriminate.
  - rewrite on_timer_tick_sleep by exact H.
    destruct Hl as [-> | [-> | [-> | ->]]];
      now rewrite rd_assign8_neq, rd_initState_sweep, rd_assign8_neq
        by discriminate.
Qed.

Lemma main_timer_state (m : Machine) :
  machine_inv m ->
  rd (main_timer m) state = rd m state \/
  (rd m state = sleep /\ rd (main_timer m) state = sweep).
Proof.
  intros (Hm & _).
  destruct (Z.eq_dec (rd m timer) 0) as [T | T].
  { left. now rewrite main_timer_idle. }
  rewrite main_timer_fired, rd_assign8_neq by (exact T || discriminate).
  destruct Hm as [H | [H | [H | H]]].
  - destruct (on_timer_tick_sweep m H) as (Hrd & _). left. now rewrite Hrd.
  - rewrite on_timer_tick_toggles by (left; exact H). left.
    now rewrite rd_toggle_led.
  - rewrite on_timer_tick_toggles by (right; exact H). left.
    now rewrite rd_toggle_led.
  - rewrite on_timer_tick_sleep by exact H. right. split; [exact H|].
    now rewrite rd_initState_state, rd_assign8_eq.
Qed.

Lemma key_bit_ext (m m' : Machine) (b : Z) :
  rd m' key_state = rd m key_state -> rd m' ct0 = rd m ct0 ->
  rd m' ct1 = rd m ct1 -> rd m' key_press = rd m key_press ->
  key_bit m' b = key_bit m b.
Proof. intros H1 H2 H3 H4. unfold key_bit. now rewrite H1, H2, H3, H4. Qed.

(** With the button debounced as pressed and its press already polled, one
    more input during which it stays down leaves the debounce state as it
    is and does not enter the press handler. *)
Lemma held_step (m : Machine) (i : Input) :
  machine_inv m ->
  key_bit m KEY0 = mkKeyBit true true true false ->
  held_down i ->
  key_bit (step m i) KEY0 = mkKeyBit true true true false /\
  (rd (step m i) state = rd m state \/
   (rd m state = sleep /\ rd (step m i) state = sweep)).
Proof.
  intros Hi K Hh. destruct i as [pin | | ]; cbn [step held_down] in *.
  - rewrite ISR_TIMER0_OVF_bit, K, Hh by (unfold KEY0; lia).
    split; [reflexivity|]. left. now rewrite rd_ISR_TIMER0_OVF.
  - unfold ISR_TIMER1_COMPA. split.
    + rewrite <- K. apply key_bit_ext; now rewrite rd_assign8_neq by discriminate.
    + left. now rewrite rd_assign8_neq by discriminate.
  - unfold loop_body, seqc.
    assert (K' : key_bit (main_timer m) KEY0 = mkKeyBit true true true false).
    { rewrite <- K. apply key_bit_ext; apply main_timer_keeps_key; auto. }
    assert (P : Z.testbit (rd (main_timer m) key_press) KEY0 = false)
      by (exact (f_equal kb_press K')).
    rewrite main_key_idle by exact P. split.
    + rewrite key_bit_get_key_press, K' by (unfold KEY0; lia). reflexivity.
    + rewrite rd_get_key_press by discriminate. now apply main_timer_state.
Qed.

(** X12: Holding the button does not repeat the press: once the press has been
    polled, then for as long as the line reads low no further press is
    flagged and the mode does not advance; the only change of mode left is
    the wake-up from Suspended to Sweep. *)
Theorem held_button_does_not_repeat (m : Machine) (ins : list Input) :
  machine_inv m ->
  key_bit m KEY0 = mkKeyBit true true true false ->
  Forall held_down ins ->
  let m' := run m ins in
  key_bit m' KEY0 = mkKeyBit true true true false /\
  (rd m' state = rd m state \/ (rd m state = sleep /\ rd m' state = sweep)).
Proof.
  intros Hi K F. cbv zeta. unfold run. revert m Hi K.
  induction F as [|i ins Hh _ IH]; intros m Hi K.
  - split; [exact K | now left].
  - cbn [fold_left].
    destruct (held_step m i Hi K Hh) as (K1 & S1).
    destruct (IH (step m i) (step_inv m i Hi) K1) as (K2 & S2).
    split; [exact K2|].
    destruct S1 as [E1 | (E1 & E1')], S2 as [E2 | (E2 & E2')].
    + left. congruence.
    + right. split; congruence.
    + right. split; congruence.
    + rewrite E1' in E2. discriminate.
Qed.

(** The button pressed in Sweep, polled, and held through samples, compare
    matches and turns of the loop. *)
Lemma held_button_does_not_repeat_witness :
  let m := run booted [Sample 255; Sample 254; Sample 254; Sample 254;
                       Sample 254; Turn] in
  rd m state = xor /\
  rd (run m [Sample 254; Compare; Turn; Sample 254; Turn; Turn]) state = xor.
Proof.
  intros m.
  assert (Hi : machine_inv m) by apply run_inv.
  assert (K : key_bit m KEY0 = mkKeyBit true true true false) by reflexivity.
  assert (F : Forall held_down [Sample 254; Compare; Turn; Sample 254; Turn; Turn])
    by (repeat constructor).
  destruct (held_button_does_not_repeat m _ Hi K F) as (_ & [E | (E & _)]).
  - split; [reflexivity | rewrite E; reflexivity].
  - discriminate E.
Defined.

(** * The output trace *)

Lemma halts_dark_app (tr evs : list Event) :
  halts_dark tr -> ~ In Halt evs -> halts_dark (tr ++ evs).
Proof.
  intros H N pre post E.
  apply app_eq_app in E. destruct E as (l & [(E1 & E2) | (E1 & E2)]).
  - destruct l as [|e l].
    + exfalso. apply N. cbn in E2. rewrite <- E2. now left.
    + cbn in E2. injection E2 as <- _. now apply (H pre l).
  - exfalso. apply N. rewrite E2. apply in_or_app. right. now left.
Qed.

Lemma halts_dark_sleep (tr : list Event) :
  halts_dark tr -> halts_dark (tr ++ [LedWrite 0; Delay 500; Halt]).
Proof.
  intros H pre post E.
  apply app_eq_app in E. destruct E as (l & [(E1 & E2) | (E1 & E2)]).
  - destruct l as [|e l]; [discriminate E2|].
    cbn in E2. injection E2 as <- _. now apply (H pre l).
  - destruct l as [|a [|b [|c l]]]; try discriminate E2.
    + cbn in E2. injection E2 as <- <- _. exists tr. exact E1.
    + cbn in E2. injection E2 as _ _ _ E2. destruct l; discriminate E2.
Qed.

Lemma trace_toggle_led (m : Machine) :
  trace (toggle_led m) = trace m ++ [LedWrite (u8 (Z.lxor (rd m PORTD) 255))].
Proof. unfold_cmds. store. reflexivity. Qed.

(** What one input appends to the trace: LED writes only, or LED writes
    followed by the three events of going to sleep. *)
Lemma step_trace (m : Machine) (i : Input) :
  machine_inv m ->
  exists evs,
    ~ In Halt evs /\
    (trace (step m i) = trace m ++ evs \/
     trace (step m i) = (trace m ++ evs) ++ [LedWrite 0; Delay 500; Halt]).
Proof.
  intros Hi. destruct i as [pin | | ]; cbn [step].
  - exists []. split; [easy|]. left. now rewrite app_nil_r.
  - exists []. split; [easy|]. left. now rewrite app_nil_r.
  - unfold loop_body, seqc.
    assert (T : exists evs, ~ In Halt evs /\
                  trace (main_timer m) = trace m ++ evs).
    { destruct (Z.eq_dec (rd m timer) 0) as [T | T].
      { exists []. rewrite main_timer_idle, app_nil_r by exact T. now split. }
      rewrite main_timer_fired by exact T.
      change (trace (assign8 timer (fun _ => 0) (on_timer_tick m)))
        with (trace (on_timer_tick m)).
      destruct Hi as ([H | [H | [H | H]]] & _).
      - destruct (on_timer_tick_sweep m H) as (_ & Htr).
        eexists. split; [|exact Htr]. intros [F | []]. discriminate F.
      - rewrite on_timer_tick_toggles, trace_toggle_led by (left; exact H).
        eexists. split; [|reflexivity]. intros [F | []]. discriminate F.
      - rewrite on_timer_tick_toggles, trace_toggle_led by (right; exact H).
        eexists. split; [|reflexivity]. intros [F | []]. discriminate F.
      - rewrite on_timer_tick_sleep by exact H.
        exists []. split; [easy|]. rewrite trace_initState_sweep.
        now rewrite app_nil_r. }
    destruct T as (evs & N & Etr).
    destruct (main_timer_inv m Hi) as ((Hm & _) & Hn).
    set (m1 := main_timer m) in *.
    destruct (Z.testbit (rd m1 key_press) KEY0) eqn:P.
    + rewrite main_key_pressed by exact P.
      set (m0 := snd (get_key_press (bv KEY0) m1)).
      destruct (on_button_press_entry m0) as (m2 & E & Ht & _).
      cbv zeta in E.
      assert (S0 : rd m0 state = rd m1 state)
        by (subst m0; now rewrite rd_get_key_press by discriminate).
      rewrite S0, (advance_is_next_mode _ Hm) in E. rewrite E.
      change (trace m0) with (trace m1) in Ht.
      destruct Hm as [H | [H | [H | H]]]; [ | | | contradiction]; rewrite H.
      * exists (evs ++ [LedWrite 15]). split.
        { intros F. apply in_app_or in F. destruct F as [F | [F | []]];
            [now apply N | discriminate F]. }
        left. change (next_mode sweep) with xor.
        now rewrite trace_initState_xor, Ht, Etr, app_assoc.
      * exists (evs ++ [LedWrite 255]). split.
        { intros F. apply in_app_or in F. destruct F as [F | [F | []]];
            [now apply N | discriminate F]. }
        left. change (next_mode xor) with flash.
        now rewrite trace_initState_flash, Ht, Etr, app_assoc.
      * exists evs. split; [exact N|]. right.
        change (next_mode flash) with sleep.
        now rewrite trace_initState_sleep, Ht, Etr.
    + rewrite main_key_idle by exact P.
      exists evs. split; [exact N|]. left. exact Etr.
Qed.

(** X13: In every run from reset the chip is halted only straight after the
    LEDs were switched off and the delay was served: each halt in the
    output trace is preceded by the write of 0x00 to the LED port and the
    delay of 500 ms. *)
Theorem halts_only_when_dark (ins : list Input) :
  halts_dark (trace (run booted ins)).
Proof.
  assert (G : forall m, machine_inv m -> halts_dark (trace m) ->
                halts_dark (trace (run m ins))).
  { unfold run. induction ins as [|i ins IH]; intros m Hi Hd; [exact Hd|].
    cbn [fold_left]. apply IH; [now apply step_inv|].
    destruct (step_trace m i Hi) as (evs & N & [E | E]); rewrite E.
    - now apply halts_dark_app.
    - now apply halts_dark_sleep, halts_dark_app. }
  apply G; [apply machine_inv_booted|].
  intros pre post E. exfalso.
  assert (I : In Halt (trace booted)) by (rewrite E; apply in_or_app; right; now left).
  vm_compute in I. destruct I as [F | []]. discriminate F.
Qed.

(** * Lost ticks, independent inputs *)

Lemma rd_initState_sweep_SREG (m : Machine) :
  rd (initState sweep m) SREG =
  u8 (Z.lor (u8 (Z.land (rd m SREG) (Z.lnot (bv SREG_I)))) (bv SREG_I)).
Proof.
  change (initState sweep) with
    (assign8 tracker (fun _ => 1) ;; assign8 direction (fun _ => 1) ;;
     start_timer1_compare sweepDelay). exec. reflexivity.
Qed.

(** The tick handler's result depends on the [timer] flag in no way. *)
Lemma on_timer_tick_flag (m : Machine) (v : Z) (l : Loc) :
  is_mode (rd m state) ->
  rd (on_timer_tick (assign8 timer (fun _ => v) m)) l =
    (if Loc_eq_dec timer l then u8 v else rd (on_timer_tick m) l) /\
  trace (on_timer_tick (assign8 timer (fun _ => v) m)) = trace (on_timer_tick m).
Proof.
  intros Hm. set (m1 := assign8 timer (fun _ => v) m).
  assert (H1 : forall k, k <> timer -> rd m1 k = rd m k)
    by (intros k Hk; subst m1; now rewrite rd_assign8_neq by congruence).
  assert (Ht : rd m1 timer = u8 v) by (subst m1; now rewrite rd_assign8_eq).
  assert (Hs : rd m1 state = rd m state) by (now rewrite H1 by discriminate).
  destruct Hm as [H | [H | [H | H]]].
  - destruct (on_timer_tick_sweep m H) as (R & T).
    destruct (on_timer_tick_sweep m1 (eq_trans Hs H)) as (R1 & T1).
    cbv zeta in *. rewrite R1, T1, R, T.
    rewrite (H1 tracker), (H1 direction) by discriminate. split; [|reflexivity].
    destruct l; cbn; try reflexivity; try exact Ht; now apply H1.
  - rewrite !on_timer_tick_toggles by (left; congruence).
    rewrite !rd_toggle_led, !trace_toggle_led, (H1 PORTD) by discriminate.
    split; [|reflexivity].
    destruct l; cbn; try reflexivity; try exact Ht; now apply H1.
  - rewrite !on_timer_tick_toggles by (right; congruence).
    rewrite !rd_toggle_led, !trace_toggle_led, (H1 PORTD) by discriminate.
    split; [|reflexivity].
    destruct l; cbn; try reflexivity; try exact Ht; now apply H1.
  - rewrite !on_timer_tick_sleep by congruence. split; [|reflexivity].
    destruct (Loc_eq_dec timer l) as [<- | N].
    + now rewrite rd_initState_sweep, rd_assign8_neq by discriminate.
    + destruct (Loc_eq_dec l SREG) as [-> | N'].
      * now rewrite !rd_initState_sweep_SREG, !rd_assign8_neq, H1 by discriminate.
      * rewrite !rd_initState_sweep by exact N'.
        destruct l; try reflexivity; try congruence;
          rewrite ?rd_assign8_eq, ?rd_assign8_neq, ?H1 by discriminate;
          reflexivity.
Qed.

(** X14: Ticks do not queue: a compare match that arrives while the flag of an
    earlier one is still raised is lost, the loop then acts once. *)
Theorem ticks_do_not_queue (m : Machine) (l : Loc) :
  is_mode (rd m state) ->
  rd (tick (ISR_TIMER1_COMPA m)) l = rd (tick m) l /\
  trace (tick (ISR_TIMER1_COMPA m)) = trace (tick m).
Proof.
  intros Hm. rewrite !tick_eq. unfold ISR_TIMER1_COMPA.
  set (m1 := assign8 timer (fun _ => 1) m).
  assert (Hm1 : is_mode (rd m1 state))
    by (subst m1; now rewrite rd_assign8_neq by discriminate).
  split.
  - destruct (Loc_eq_dec timer l) as [<- | N].
    + now rewrite !rd_assign8_eq.
    + rewrite !rd_assign8_neq by exact N.
      destruct (on_timer_tick_flag m1 1 l Hm1) as (R & _). rewrite R.
      destruct (Loc_eq_dec timer l); [contradiction | reflexivity].
  - change (trace (assign8 timer (fun _ => 0) (on_timer_tick (assign8 timer (fun _ => 1) m1))))
      with (trace (on_timer_tick (assign8 timer (fun _ => 1) m1))).
    change (trace (assign8 timer (fun _ => 0) (on_timer_tick m1)))
      with (trace (on_timer_tick m1)).
    apply (on_timer_tick_flag m1 1 timer Hm1).
Qed.

Lemma ticks_do_not_queue_witness :
  rd (tick (ISR_TIMER1_COMPA booted)) ledPort = rd (tick booted) ledPort.
Proof.
  assert (Hm : is_mode (rd booted state)) by (left; reflexivity).
  apply (ticks_do_not_queue booted ledPort Hm).
Defined.

(** X15: The eight inputs are debounced independently of each other: what one
    sample does to bit [b] of the debounce variables depends only on bit
    [b] of those variables and of the sampled value. *)
Theorem debounce_bits_independent (pin pin' : Z) (m m' : Machine) (b : Z) :
  0 <= b < 8 ->
  key_bit m b = key_bit m' b ->
  Z.testbit pin b = Z.testbit pin' b ->
  key_bit (ISR_TIMER0_OVF pin m) b = key_bit (ISR_TIMER0_OVF pin' m') b.
Proof.
  intros Hb Hk Hp. rewrite !ISR_TIMER0_OVF_bit by exact Hb. now rewrite Hk, Hp.
Qed.

(** The other seven lines of the port read low instead of high. *)
Lemma debounce_bits_independent_witness :
  key_bit (ISR_TIMER0_OVF 254 booted) KEY0 =
  key_bit (ISR_TIMER0_OVF 0 booted) KEY0.
Proof.
  apply (debounce_bits_independent 254 0 booted booted KEY0).
  - unfold KEY0; lia.
  - reflexivity.
  - reflexivity.
Defined.

(** * From the button to the mode *)

Lemma samples_as_run (pins : list Z) (m : Machine) :
  samples pins m = run m (map Sample pins).
Proof.
  unfold samples, run. revert m.
  induction pins as [|p pins IH]; intros m; [reflexivity|].
  cbn [map fold_left step]. apply IH.
Qed.

Lemma run_app (m : Machine) (ins ins' : list Input) :
  run (run m ins) ins' = run m (ins ++ ins').
Proof. unfold run. now rewrite fold_left_app. Qed.

(** X16: The debouncer and the loop together: from a released button with its
    counter at rest and no press pending, four consecutive low samples
    followed by a turn of the loop advance the mode to its successor,
    whereas up to three low samples followed by a high one leave the mode
    to the timer part of the turn. *)
Theorem debounced_press_advances_mode (ins : list Input) (pins : list Z) :
  let m := run booted ins in
  at_rest m KEY0 ->
  Z.testbit (rd m key_state) KEY0 = false ->
  Z.testbit (rd m key_press) KEY0 = false ->
  Forall (fun pin => Z.testbit pin KEY0 = false) pins ->
  (length pins = 4%nat ->
   rd (loop_body (samples pins m)) state =
   next_mode (rd (main_timer (samples pins m)) state)) /\
  ((length pins < 4)%nat ->
   forall pin, Z.testbit pin KEY0 = true ->
   rd (loop_body (ISR_TIMER0_OVF pin (samples pins m))) state =
   rd (main_timer (ISR_TIMER0_OVF pin (samples pins m))) state).
Proof.
  intros m Hr Hs Hp F.
  assert (Hb : 0 <= KEY0 < 8) by (unfold KEY0; lia).
  pose proof (key_bit_at_rest m KEY0 Hr) as K. rewrite Hs, Hp in K.
  destruct (count_to_four false false) as (C1 & C2 & C3 & C4).
  assert (Run : key_bit (samples pins m) KEY0 =
                Nat.iter (length pins) (debounce_bit false)
                  (mkKeyBit false true true false)).
  { rewrite samples_bit, K by exact Hb. now apply fold_same_level. }
  split.
  - intros L. rewrite L, C4 in Run.
    assert (P : Z.testbit (rd (samples pins m) key_press) KEY0 = true)
      by (exact (f_equal kb_press Run)).
    subst m. rewrite samples_as_run, run_app in *.
    now apply turn_with_press_advances.
  - intros L pin Hpin.
    set (m' := ISR_TIMER0_OVF pin (samples pins m)).
    assert (P : Z.testbit (rd m' key_press) KEY0 = false).
    { pose proof (ISR_TIMER0_OVF_bit pin (samples pins m) KEY0 Hb) as E.
      fold m' in E. rewrite Hpin, Run in E.
      change (Z.testbit (rd m' key_press) KEY0) with (kb_press (key_bit m' KEY0)).
      rewrite E.
      destruct (length pins) as [|[|[|[|n]]]]; try lia;
        [ | rewrite C1 | rewrite C2 | rewrite C3 ]; reflexivity. }
    assert (Hi : machine_inv m').
    { subst m' m. rewrite samples_as_run, run_app.
      change (ISR_TIMER0_OVF pin (run booted (ins ++ map Sample pins)))
        with (step (run booted (ins ++ map Sample pins)) (Sample pin)).
      apply step_inv, run_inv. }
    unfold loop_body, seqc.
    rewrite main_key_idle by (now rewrite rd_main_timer_key_press).
    now rewrite rd_get_key_press by discriminate.
Qed.

Lemma debounced_press_advances_mode_witness :
  rd (loop_body (samples [254; 254; 254; 254] (run booted [Sample 255]))) state = xor /\
  rd (loop_body (ISR_TIMER0_OVF 255 (samples [254; 254; 254]
                   (run booted [Sample 255])))) state = sweep.
Proof.
  assert (Hr : at_rest (run booted [Sample 255]) KEY0) by (split; reflexivity).
  assert (Hs : Z.testbit (rd (run booted [Sample 255]) key_state) KEY0 = false)
    by reflexivity.
  assert (Hp : Z.testbit (rd (run booted [Sample 255]) key_press) KEY0 = false)
    by reflexivity.
  split.
  - assert (F : Forall (fun pin => Z.testbit pin KEY0 = false) [254; 254; 254; 254])
      by (repeat constructor).
    destruct (debounced_press_advances_mode [Sample 255] _ Hr Hs Hp F) as (H & _).
    rewrite (H eq_refl). reflexivity.
  - assert (F : Forall (fun pin => Z.testbit pin KEY0 = false) [254; 254; 254])
      by (repeat constructor).
    destruct (debounced_press_advances_mode [Sample 255] _ Hr Hs Hp F) as (_ & H).
    rewrite (H (Nat.lt_succ_diag_r 3) 255 eq_refl). reflexivity.
Defined.

Lemma leds_follow_mode_witness :
  In (rd (run booted [Compare; Turn]) ledPort) (255 :: 0 :: one_hot).
Proof.
  destruct (leds_follow_mode [Compare; Turn]) as (_ & H).
  apply H. reflexivity.
Defined.

(** Three presses from reset: the run ends with the chip halted once. *)
Lemma halts_only_when_dark_witness :
  exists pre',
    [LedWrite 255; LedWrite 15; LedWrite 255; LedWrite 0; Delay 500] =
    pre' ++ [LedWrite 0; Delay 500].
Proof.
  apply (halts_only_when_dark
           [Sample 255; Sample 254; Sample 254; Sample 254; Sample 254; Turn;
            Sample 255; Sample 255; Sample 255; Sample 255;
            Sample 254; Sample 254; Sample 254; Sample 254; Turn;
            Sample 255; Sample 255; Sample 255; Sample 255;
            Sample 254; Sample 254; Sample 254; Sample 254; Turn]
           [LedWrite 255; LedWrite 15; LedWrite 255; LedWrite 0; Delay 500] []).
  reflexivity.
Defined.
